(** * Realtime poetry: generation-ahead buffering and scheduling

    A shallow embedding of the buffering and scheduling core of the
    camera-reactive poetry generator:

    - [src/utils/config.js]       the timing configuration,
    - [src/modules/poetry.js]     the rolling history of previous lines,
    - [src/modules/audioBuffer.js] the playback queue and its consumer loop,
    - [src/main.js]               the session (start, stop, generateClip).

    JavaScript runs every handler to completion; an [async] function is
    cut at its [await]s.  Each piece between two suspension points is a
    function on the state here, and the environment (network replies,
    timers, audio events) chooses which piece runs next. *)

From Stdlib Require Import String Ascii Bool Arith ZArith Lia Floats List.
From Stdlib Require Import Permutation.
From Stdlib Require Uint63.
Import ListNotations.

Local Open Scope list_scope.

(** ** Configuration ([src/utils/config.js], [config.timing]) *)

Module Config.

(** The two clip counts read by the buffer.  They are natural numbers:
    a count of clips is never negative. *)
Record Timing := mkTiming {
  minBufferClips : nat;
  maxBufferClips : nat
}.

(** The values of [config.timing] in the repository. *)
Definition timing : Timing :=
  {| minBufferClips := 2; maxBufferClips := 5 |}.

End Config.

(** ** How a call ends *)

Inductive Error :=
| NotInitialized   (* 'Audio buffer not initialized. Call initialize() first.' *)
| DecodeFailed     (* blob.arrayBuffer() or decodeAudioData rejected *)
| ContextFailed.   (* the AudioContext could not be created or resumed *)

Inductive outcome :=
| Returned
| Threw (e : Error).

(** ** The string functions of JavaScript that the history uses

    Strings are sequences of bytes here.  The white space of
    [String.prototype.trim] is taken over the ASCII range (tab, line
    feed, vertical tab, form feed, carriage return, space); every other
    byte counts as text. *)

Module JsString.

Definition isWhiteSpace (c : ascii) : bool :=
  match nat_of_ascii c with
  | 9 | 10 | 11 | 12 | 13 | 32 => true
  | _ => false
  end.

Fixpoint trimStart (s : string) : string :=
  match s with
  | EmptyString => EmptyString
  | String c rest => if isWhiteSpace c then trimStart rest else s
  end.

Fixpoint trimEnd (s : string) : string :=
  match s with
  | EmptyString => EmptyString
  | String c rest =>
      match trimEnd rest with
      | EmptyString => if isWhiteSpace c then EmptyString else String c EmptyString
      | kept => String c kept
      end
  end.

(** [s.trim()] *)
Definition trim (s : string) : string := trimEnd (trimStart s).

(** [s.split(sep)] for a separator of one character; the result is
    never empty. *)
Fixpoint split (sep : ascii) (s : string) : list string :=
  match s with
  | EmptyString => [EmptyString]
  | String c rest =>
      if Ascii.eqb c sep then EmptyString :: split sep rest
      else match split sep rest with
           | piece :: pieces => String c piece :: pieces
           | [] => [String c EmptyString]
           end
  end.

(** The truth value of [line.trim()]: a non-empty string. *)
Definition truthy (s : string) : bool :=
  match s with
  | EmptyString => false
  | String _ _ => true
  end.

Definition newline : ascii := ascii_of_nat 10.

(** [poetry.split('\n').filter(line => line.trim())] *)
Definition nonBlankLines (poetry : string) : list string :=
  filter (fun line => truthy (trim line)) (split newline poetry).

(** [arr.slice(-n)]: the last [n] elements; [slice(-0)] is [slice(0)],
    the whole array. *)
Definition sliceLast {A : Type} (n : nat) (l : list A) : list A :=
  if n =? 0 then l else skipn (length l - n) l.

End JsString.

(** ** The poetry module ([src/modules/poetry.js]) *)

Module Poetry.

(** The fields of [PoetryModule]; [client] is non-null exactly when
    [isInitialized] holds. *)
Record PoetryModule := mkPoetry {
  previousLines : list string;
  maxPreviousLines : nat;
  isInitialized : bool;
  sessionTheme : option string
}.

(** [constructor()] *)
Definition new : PoetryModule :=
  {| previousLines := []; maxPreviousLines := 12;
     isInitialized := false; sessionTheme := None |}.

Definition set_previousLines (l : list string) (p : PoetryModule) :=
  mkPoetry l (maxPreviousLines p) (isInitialized p) (sessionTheme p).

(** [initialize] *)
Definition initialize (p : PoetryModule) : PoetryModule :=
  mkPoetry (previousLines p) (maxPreviousLines p) true (sessionTheme p).

(** [addToHistory] *)
Definition addToHistory (poetry : string) (p : PoetryModule) : PoetryModule :=
  let lines := JsString.nonBlankLines poetry in
  let p1 := set_previousLines (previousLines p ++ lines) p in
  if maxPreviousLines p1 <? length (previousLines p1)
  then set_previousLines
         (JsString.sliceLast (maxPreviousLines p1) (previousLines p1)) p1
  else p1.

(** [setTheme] *)
Definition setTheme (theme : string) (p : PoetryModule) : PoetryModule :=
  mkPoetry (previousLines p) (maxPreviousLines p) (isInitialized p) (Some theme).

(** [clearHistory] *)
Definition clearHistory (p : PoetryModule) : PoetryModule :=
  mkPoetry [] (maxPreviousLines p) (isInitialized p) None.

(** [getHistory] *)
Definition getHistory (p : PoetryModule) : list string := previousLines p.

(** What [generate] resolves to; the time stamps and token count are
    left out. *)
Record Poem := mkPoem {
  poemText : string;
  poemLines : list string;
  lineCount : nat
}.

(** [generate] up to its [await]: the client is created and the request
    is built from the current [previousLines]. *)
Definition generateCall (p : PoetryModule) : PoetryModule := initialize p.

(** [generate] after the completion request has resolved with
    [content = response.choices[0].message.content]. *)
Definition generateReply (content : string) (p : PoetryModule)
  : PoetryModule * Poem :=
  let poetry := JsString.trim content in
  let p1 := addToHistory poetry p in
  let lines := JsString.nonBlankLines poetry in
  (p1, {| poemText := poetry; poemLines := lines; lineCount := length lines |}).

End Poetry.

(** ** The audio buffer ([src/modules/audioBuffer.js]) *)

Module AudioBuffer.

Import Config.

(** An audio clip as [tts.synthesize] returns it.  [url], [latency] and
    [timestamp] are never read by the buffer and are left out.  The two
    booleans are the environment's answers for this clip: whether
    [decodeAudioData] accepts its blob, and whether [source.start(0)]
    throws for the source node built from it.  A queue entry is
    [{...clip, audioBuffer, addedAt}]; the two added fields carry nothing
    the code branches on, so an entry is the clip itself. *)
Record AudioClip := mkClip {
  text : string;
  duration : float;
  blobDecodes : bool;
  startThrows : bool
}.

(** What [getStatus] returns. *)
Record BufferStatus := mkStatus {
  queuedClips : nat;
  totalBufferedSeconds : float;
  statusIsPlaying : bool;
  statusIsPaused : bool;
  statusCurrentlyPlaying : option (string * float)
}.

(** One entry per invocation of a listener field ([this.onX?.(...)]). *)
Inductive Event :=
| ClipStart (clip : AudioClip)
| ClipEnd (clip : AudioClip)
| BufferLow
| BufferUpdate (status : BufferStatus)
| PlaybackError.

(** The fields of [AudioBufferManager], followed by what the environment
    holds for it: the listener invocations so far (oldest first), the
    source nodes that were started and whose [ended] event has not been
    delivered yet, and the number of pending [setTimeout] callbacks. *)
Record AudioBufferManager := mkABM {
  audioContext : bool;                    (* non-null *)
  gainNode : option float;                (* [Some v]: the node exists, gain.value = v *)
  queue : list AudioClip;
  currentlyPlaying : option AudioClip;
  currentSource : option AudioClip;       (* the source node, by the clip it plays *)
  isPlaying : bool;
  isPaused : bool;
  isInitialized : bool;
  emitted : list Event;
  pendingEnded : list AudioClip;
  pendingTimeouts : nat
}.

(** [constructor()] *)
Definition new : AudioBufferManager :=
  {| audioContext := false; gainNode := None; queue := [];
     currentlyPlaying := None; currentSource := None;
     isPlaying := false; isPaused := false; isInitialized := false;
     emitted := []; pendingEnded := []; pendingTimeouts := 0 |}.

Definition set_audio (ctx : bool) (g : option float) (st : AudioBufferManager) :=
  mkABM ctx g (queue st) (currentlyPlaying st) (currentSource st)
        (isPlaying st) (isPaused st) (isInitialized st)
        (emitted st) (pendingEnded st) (pendingTimeouts st).

Definition set_queue (q : list AudioClip) (st : AudioBufferManager) :=
  mkABM (audioContext st) (gainNode st) q (currentlyPlaying st) (currentSource st)
        (isPlaying st) (isPaused st) (isInitialized st)
        (emitted st) (pendingEnded st) (pendingTimeouts st).

Definition set_currentlyPlaying (c : option AudioClip) (st : AudioBufferManager) :=
  mkABM (audioContext st) (gainNode st) (queue st) c (currentSource st)
        (isPlaying st) (isPaused st) (isInitialized st)
        (emitted st) (pendingEnded st) (pendingTimeouts st).

Definition set_currentSource (c : option AudioClip) (st : AudioBufferManager) :=
  mkABM (audioContext st) (gainNode st) (queue st) (currentlyPlaying st) c
        (isPlaying st) (isPaused st) (isInitialized st)
        (emitted st) (pendingEnded st) (pendingTimeouts st).

Definition set_isPlaying (b : bool) (st : AudioBufferManager) :=
  mkABM (audioContext st) (gainNode st) (queue st) (currentlyPlaying st)
        (currentSource st) b (isPaused st) (isInitialized st)
        (emitted st) (pendingEnded st) (pendingTimeouts st).

Definition set_isPaused (b : bool) (st : AudioBufferManager) :=
  mkABM (audioContext st) (gainNode st) (queue st) (currentlyPlaying st)
        (currentSource st) (isPlaying st) b (isInitialized st)
        (emitted st) (pendingEnded st) (pendingTimeouts st).

Definition set_isInitialized (b : bool) (st : AudioBufferManager) :=
  mkABM (audioContext st) (gainNode st) (queue st) (currentlyPlaying st)
        (currentSource st) (isPlaying st) (isPaused st) b
        (emitted st) (pendingEnded st) (pendingTimeouts st).

Definition emit (e : Event) (st : AudioBufferManager) :=
  mkABM (audioContext st) (gainNode st) (queue st) (currentlyPlaying st)
        (currentSource st) (isPlaying st) (isPaused st) (isInitialized st)
        (emitted st ++ [e]) (pendingEnded st) (pendingTimeouts st).

Definition set_pendingEnded (l : list AudioClip) (st : AudioBufferManager) :=
  mkABM (audioContext st) (gainNode st) (queue st) (currentlyPlaying st)
        (currentSource st) (isPlaying st) (isPaused st) (isInitialized st)
        (emitted st) l (pendingTimeouts st).

Definition set_pendingTimeouts (n : nat) (st : AudioBufferManager) :=
  mkABM (audioContext st) (gainNode st) (queue st) (currentlyPlaying st)
        (currentSource st) (isPlaying st) (isPaused st) (isInitialized st)
        (emitted st) (pendingEnded st) n.

(** [getTotalBufferedSeconds]:
    [this.queue.reduce((total, clip) => total + clip.duration, 0)],
    in IEEE double arithmetic. *)
Definition getTotalBufferedSeconds (st : AudioBufferManager) : float :=
  fold_left (fun total clip => PrimFloat.add total (duration clip))
            (queue st) 0%float.

(** [getStatus] *)
Definition getStatus (st : AudioBufferManager) : BufferStatus :=
  {| queuedClips := length (queue st);
     totalBufferedSeconds := getTotalBufferedSeconds st;
     statusIsPlaying := isPlaying st;
     statusIsPaused := isPaused st;
     statusCurrentlyPlaying :=
       match currentlyPlaying st with
       | Some clip => Some (text clip, duration clip)
       | None => None
       end |}.

(** [notifyBufferUpdate]: [this.onBufferUpdate?.(this.getStatus())] *)
Definition notifyBufferUpdate (st : AudioBufferManager) : AudioBufferManager :=
  emit (BufferUpdate (getStatus st)) st.

(** How [initialize] can go: the context is created and running; the
    constructor throws; or the context is created suspended and its
    [resume()] rejects. *)
Inductive InitReply := InitOk | InitCtorThrows | InitResumeRejects.

(** [initialize] *)
Definition initialize (r : InitReply) (st : AudioBufferManager)
  : AudioBufferManager * outcome :=
  if isInitialized st then (st, Returned)
  else match r with
       | InitCtorThrows => (st, Threw ContextFailed)
       | InitResumeRejects => (set_audio true (Some 1%float) st, Threw ContextFailed)
       | InitOk => (set_isInitialized true (set_audio true (Some 1%float) st), Returned)
       end.

Section WithConfig.

Variable cfg : Timing.

(** The trimming loop of [addToQueue]:
    [while (this.queue.length > config.timing.maxBufferClips) this.queue.shift()].
    Every round removes the head, so the recursion follows the list; on
    the empty queue the test [0 > maxBufferClips] is false. *)
Fixpoint trim (q : list AudioClip) : list AudioClip :=
  match q with
  | [] => []
  | _ :: rest => if maxBufferClips cfg <? length q then trim rest else q
  end.

(** [addToQueue] after the decode has succeeded (the body from
    [this.queue.push] on): push, notify, then trim. *)
Definition enqueueDecoded (clip : AudioClip) (st : AudioBufferManager)
  : AudioBufferManager :=
  let st1 := set_queue (queue st ++ [clip]) st in
  let st2 := notifyBufferUpdate st1 in
  set_queue (trim (queue st2)) st2.

(** [addToQueue], awaited as a whole. *)
Definition addToQueue (clip : AudioClip) (st : AudioBufferManager)
  : AudioBufferManager * outcome :=
  if negb (isInitialized st) then (st, Threw NotInitialized)
  else if blobDecodes clip then (enqueueDecoded clip st, Returned)
  else (st, Threw DecodeFailed).

(** The states after each call of a sequence of [addToQueue] calls. *)
Fixpoint enqueueAll (clips : list AudioClip) (st : AudioBufferManager)
  : list AudioBufferManager :=
  match clips with
  | [] => []
  | clip :: rest =>
      let st' := fst (addToQueue clip st) in
      st' :: enqueueAll rest st'
  end.

(** [playNext], the consumer loop.  It calls itself only in the [catch]
    of [source.start(0)], after the head of the queue has been removed,
    so the recursion follows the queue: [q] is [this.queue] at entry. *)
Fixpoint playNextFrom (q : list AudioClip) (st : AudioBufferManager)
  : AudioBufferManager :=
  if negb (isPlaying st) || isPaused st then st
  else
    let st1 := if length q <=? minBufferClips cfg then emit BufferLow st else st in
    match q with
    | [] =>
        (* setTimeout(() => this.playNext(), 500) *)
        set_pendingTimeouts (S (pendingTimeouts st1)) st1
    | clip :: rest =>
        let st2 := set_currentlyPlaying (Some clip) (set_queue rest st1) in
        let st3 := notifyBufferUpdate (emit (ClipStart clip) st2) in
        let st4 := set_currentSource (Some clip) st3 in
        if startThrows clip
        then playNextFrom rest (emit PlaybackError st4)
        else set_pendingEnded (pendingEnded st4 ++ [clip]) st4
    end.

Definition playNext (st : AudioBufferManager) : AudioBufferManager :=
  playNextFrom (queue st) st.

(** The [source.onended] closure that [playNext] installs for [clip]. *)
Definition onended (clip : AudioClip) (st : AudioBufferManager)
  : AudioBufferManager :=
  let st1 := set_currentlyPlaying None (set_currentSource None st) in
  let st2 := emit (ClipEnd clip) st1 in
  if isPlaying st2 && negb (isPaused st2) then playNext st2 else st2.

Fixpoint removeNth {A : Type} (i : nat) (l : list A) : list A :=
  match l, i with
  | [], _ => []
  | _ :: rest, 0 => rest
  | x :: rest, S j => x :: removeNth j rest
  end.

(** The environment delivers the [ended] event of the [i]-th started
    source (it played to its end, or [stop()] was called on it). *)
Definition sourceEnded (i : nat) (st : AudioBufferManager) : AudioBufferManager :=
  match nth_error (pendingEnded st) i with
  | Some clip => onended clip (set_pendingEnded (removeNth i (pendingEnded st)) st)
  | None => st
  end.

(** The environment runs one pending [setTimeout] callback. *)
Definition timeoutFires (st : AudioBufferManager) : AudioBufferManager :=
  match pendingTimeouts st with
  | 0 => st
  | S n => playNext (set_pendingTimeouts n st)
  end.

(** [play].  [r] says how [initialize] goes when it is needed and, for a
    buffer that is initialized already, whether resuming a suspended
    context rejects. *)
Definition play (r : InitReply) (st : AudioBufferManager)
  : AudioBufferManager * outcome :=
  match (if isInitialized st then (st, Returned) else initialize r st) with
  | (st1, Threw e) => (st1, Threw e)
  | (st1, Returned) =>
      if isPlaying st1 && negb (isPaused st1) then (st1, Returned)
      else
        match isInitialized st, r with
        | true, InitResumeRejects => (st1, Threw ContextFailed)
        | _, _ => (playNext (set_isPaused false (set_isPlaying true st1)), Returned)
        end
  end.

(** [pause].  [currentSource.stop()] makes the source deliver its
    [ended] event later; the source stays in [pendingEnded]. *)
Definition pause (st : AudioBufferManager) : AudioBufferManager :=
  if negb (isPlaying st) then st
  else
    let st1 := set_isPaused true st in
    let st2 := match currentSource st1 with
               | Some _ => set_currentSource None st1
               | None => st1
               end in
    notifyBufferUpdate st2.

(** [resume] *)
Definition resume (st : AudioBufferManager) : AudioBufferManager :=
  if negb (isPaused st) then st
  else playNext (set_isPaused false st).

(** [stop] *)
Definition stop (st : AudioBufferManager) : AudioBufferManager :=
  let st1 := set_isPaused false (set_isPlaying false st) in
  let st2 := match currentSource st1 with
             | Some _ => set_currentSource None st1
             | None => st1
             end in
  notifyBufferUpdate (set_currentlyPlaying None st2).

(** [clearQueue] *)
Definition clearQueue (st : AudioBufferManager) : AudioBufferManager :=
  notifyBufferUpdate (set_queue [] st).

End WithConfig.




(** [isCurrentlyPlaying] *)
Definition isCurrentlyPlaying (st : AudioBufferManager) : bool :=
  isPlaying st && negb (isPaused st)
  && match currentSource st with Some _ => true | None => false end.



End AudioBuffer.

(** ** The session ([src/main.js]) *)

Module Main.

Import Config.

(** What the outside world answers during one pipeline run:
    [camera.captureFrame()] (it throws: [None]), [vision.analyzeFrame]
    (the scene description), the completion request of [poetry.generate]
    (the message content), and [tts.synthesize] (the clip; its [text] is
    the text that was sent). *)
Record Replies := mkReplies {
  capture : option string;
  vision : option string;
  compose : option string;
  synth : option AudioBuffer.AudioClip
}.

(** Where a suspended [generateClip] waits. *)
Inductive Phase :=
| AwaitVision
| AwaitPoetry
| AwaitSpeech (text : string)
| AwaitDecode (clip : AudioBuffer.AudioClip).

(** The [Mil4dy] object together with the two module singletons it
    drives, and the [generateClip] activations that are suspended at an
    [await] and the live [setInterval] timers, which the environment
    holds.  [stats.totalLatency] is wall-clock time and is left out. *)
Record Mil4dy := mkApp {
  isRunning : bool;
  isGenerating : bool;
  generationLoop : bool;                  (* the timer handle is non-null *)
  clipsGenerated : nat;
  errors : nat;
  poetry : Poetry.PoetryModule;
  audioBuffer : AudioBuffer.AudioBufferManager;
  inFlight : list Phase;
  liveIntervals : nat
}.

(** [constructor()], with fresh singletons *)
Definition new : Mil4dy :=
  {| isRunning := false; isGenerating := false; generationLoop := false;
     clipsGenerated := 0; errors := 0;
     poetry := Poetry.new; audioBuffer := AudioBuffer.new;
     inFlight := []; liveIntervals := 0 |}.

Definition set_isRunning (b : bool) (w : Mil4dy) :=
  mkApp b (isGenerating w) (generationLoop w) (clipsGenerated w) (errors w)
        (poetry w) (audioBuffer w) (inFlight w) (liveIntervals w).

Definition set_isGenerating (b : bool) (w : Mil4dy) :=
  mkApp (isRunning w) b (generationLoop w) (clipsGenerated w) (errors w)
        (poetry w) (audioBuffer w) (inFlight w) (liveIntervals w).

Definition set_generationLoop (b : bool) (n : nat) (w : Mil4dy) :=
  mkApp (isRunning w) (isGenerating w) b (clipsGenerated w) (errors w)
        (poetry w) (audioBuffer w) (inFlight w) n.

Definition set_clipsGenerated (n : nat) (w : Mil4dy) :=
  mkApp (isRunning w) (isGenerating w) (generationLoop w) n (errors w)
        (poetry w) (audioBuffer w) (inFlight w) (liveIntervals w).

Definition set_errors (n : nat) (w : Mil4dy) :=
  mkApp (isRunning w) (isGenerating w) (generationLoop w) (clipsGenerated w) n
        (poetry w) (audioBuffer w) (inFlight w) (liveIntervals w).

Definition set_poetry (p : Poetry.PoetryModule) (w : Mil4dy) :=
  mkApp (isRunning w) (isGenerating w) (generationLoop w) (clipsGenerated w)
        (errors w) p (audioBuffer w) (inFlight w) (liveIntervals w).

Definition set_audioBuffer (b : AudioBuffer.AudioBufferManager) (w : Mil4dy) :=
  mkApp (isRunning w) (isGenerating w) (generationLoop w) (clipsGenerated w)
        (errors w) (poetry w) b (inFlight w) (liveIntervals w).

Definition set_inFlight (l : list Phase) (w : Mil4dy) :=
  mkApp (isRunning w) (isGenerating w) (generationLoop w) (clipsGenerated w)
        (errors w) (poetry w) (audioBuffer w) l (liveIntervals w).

Section WithConfig.

Variable cfg : Timing.

(** The [catch] block of [generateClip] followed by its [finally]
    block; [showError] only touches the page. *)
Definition catchFinally (w : Mil4dy) : Mil4dy :=
  set_isGenerating false (set_errors (S (errors w)) w).

(** [generateClip] from its call to its first [await]: the guard, the
    flag, [camera.captureFrame()], and the call of [vision.analyzeFrame].
    The second component is where the activation is suspended, or [None]
    when the call has returned. *)
Definition generateClipEnter (r : Replies) (w : Mil4dy) : Mil4dy * option Phase :=
  if isGenerating w then (w, None)
  else
    let w1 := set_isGenerating true w in
    match capture r with
    | None => (catchFinally w1, None)
    | Some _ => (w1, Some AwaitVision)
    end.

(** [generateClip] from the settling of the promise it waits for to its
    next [await], or to its end. *)
Definition generateClipResume (r : Replies) (ph : Phase) (w : Mil4dy)
  : Mil4dy * option Phase :=
  match ph with
  | AwaitVision =>
      match vision r with
      | None => (catchFinally w, None)
      | Some _ => (set_poetry (Poetry.generateCall (poetry w)) w, Some AwaitPoetry)
      end
  | AwaitPoetry =>
      match compose r with
      | None => (catchFinally w, None)
      | Some content =>
          let (p, poem) := Poetry.generateReply content (poetry w) in
          (set_poetry p w, Some (AwaitSpeech (Poetry.poemText poem)))
      end
  | AwaitSpeech text =>
      match synth r with
      | None => (catchFinally w, None)
      | Some a =>
          let clip := AudioBuffer.mkClip text (AudioBuffer.duration a)
                        (AudioBuffer.blobDecodes a) (AudioBuffer.startThrows a) in
          (* audioBuffer.addToQueue(audio) up to its first await *)
          if negb (AudioBuffer.isInitialized (audioBuffer w))
          then (catchFinally w, None)
          else (w, Some (AwaitDecode clip))
      end
  | AwaitDecode clip =>
      if AudioBuffer.blobDecodes clip
      then
        let w1 := set_audioBuffer
                    (AudioBuffer.enqueueDecoded cfg clip (audioBuffer w)) w in
        let w2 := set_clipsGenerated (S (clipsGenerated w1)) w1 in
        (set_isGenerating false w2, None)
      else (catchFinally w, None)
  end.

(** A suspended activation is resumed until it returns.  Every
    resumption moves to a later phase, so four rounds are enough. *)
Fixpoint resumeAll (fuel : nat) (r : Replies) (x : Mil4dy * option Phase)
  : Mil4dy * option Phase :=
  match fuel, x with
  | S n, (w, Some ph) => resumeAll n r (generateClipResume r ph w)
  | _, _ => x
  end.

(** [await this.generateClip()]: one call, run to its end with nothing
    else happening in between. *)
Definition generateClip (r : Replies) (w : Mil4dy) : Mil4dy :=
  fst (resumeAll 4 r (generateClipEnter r w)).

(** A call of [generateClip] that is not awaited: the activation, when
    it suspends, is handed to the environment. *)
Definition spawnGenerateClip (r : Replies) (w : Mil4dy) : Mil4dy :=
  match generateClipEnter r w with
  | (w1, Some ph) => set_inFlight (inFlight w1 ++ [ph]) w1
  | (w1, None) => w1
  end.

(** The listeners that [setupAudioCallbacks] installs.  [onClipStart]
    and [onBufferUpdate] only touch the page; [onClipEnd] is not set. *)
Definition listener (r : Replies) (w : Mil4dy) (e : AudioBuffer.Event) : Mil4dy :=
  match e with
  | AudioBuffer.BufferLow =>
      if isRunning w && negb (isGenerating w) then spawnGenerateClip r w else w
  | AudioBuffer.PlaybackError => set_errors (S (errors w)) w
  | _ => w
  end.

(** Run a piece of the audio buffer's code and the listeners it
    invokes.  No listener touches the buffer before it returns, so the
    listeners commute with the rest of the piece. *)
Definition withListeners (r : Replies)
  (f : AudioBuffer.AudioBufferManager -> AudioBuffer.AudioBufferManager)
  (w : Mil4dy) : Mil4dy :=
  let before := audioBuffer w in
  let after := f before in
  let invoked := skipn (length (AudioBuffer.emitted before))
                       (AudioBuffer.emitted after) in
  fold_left (listener r) invoked (set_audioBuffer after w).

(** [startGenerationLoop] without the body of the timer callback *)
Definition startGenerationLoop (w : Mil4dy) : Mil4dy :=
  set_generationLoop true (S (liveIntervals w)) w.

(** [stopGenerationLoop] *)
Definition stopGenerationLoop (w : Mil4dy) : Mil4dy :=
  if generationLoop w then set_generationLoop false (pred (liveIntervals w)) w
  else w.

(** The callback given to [setInterval] in [startGenerationLoop] *)
Definition intervalTick (r : Replies) (w : Mil4dy) : Mil4dy :=
  let status := AudioBuffer.getStatus (audioBuffer w) in
  if AudioBuffer.queuedClips status <? minBufferClips cfg + 1
  then if negb (isGenerating w) then spawnGenerateClip r w else w
  else w.

(** [stop] *)
Definition stop (r : Replies) (w : Mil4dy) : Mil4dy :=
  let w1 := set_isRunning false w in
  let w2 := stopGenerationLoop w1 in
  withListeners r AudioBuffer.pause w2.

(** [start] from its call to the first [generateClip]; the second
    component says whether the [try] block goes on. *)
Definition startEnter (init : AudioBuffer.InitReply) (r : Replies) (w : Mil4dy)
  : Mil4dy * bool :=
  let w1 := set_isRunning true w in
  match AudioBuffer.initialize init (audioBuffer w1) with
  | (ab, Returned) => (set_audioBuffer ab w1, true)
  | (ab, Threw _) => (stop r (set_audioBuffer ab w1), false)   (* catch *)
  end.

(** [start] after the second [generateClip]: [audioBuffer.play()], not
    awaited, and [startGenerationLoop()]. *)
Definition startPlay (r : Replies) (w : Mil4dy) : Mil4dy :=
  let w1 := withListeners r
              (fun ab => fst (AudioBuffer.play cfg AudioBuffer.InitOk ab)) w in
  startGenerationLoop w1.

(** The two [await this.generateClip()] of [start]. *)
Definition startPriming (r1 r2 : Replies) (w : Mil4dy) : Mil4dy :=
  generateClip r2 (generateClip r1 w).

(** [start], awaited as a whole with nothing else happening in between:
    [r1] and [r2] answer the two priming runs and [r3] the run that the
    low-buffer listener may begin when playback starts. *)
Definition start (init : AudioBuffer.InitReply) (r1 r2 r3 : Replies) (w : Mil4dy)
  : Mil4dy :=
  match startEnter init r3 w with
  | (w1, true) => startPlay r3 (startPriming r1 r2 w1)
  | (w1, false) => w1
  end.

(** What the environment can make happen next. *)
Inductive Action :=
| CallGenerateClip (r : Replies)        (* [this.generateClip()], e.g. from [start] *)
| IntervalTick (r : Replies)            (* a live interval timer fires *)
| PromiseSettles (i : nat) (r : Replies) (* the [i]-th suspended activation goes on *)
| CallStop (r : Replies)
| StartEnter (init : AudioBuffer.InitReply) (r : Replies)
| StartPlay (r : Replies)
| SourceEnded (i : nat) (r : Replies)   (* an [ended] event of the audio buffer *)
| TimeoutFires (r : Replies)            (* the empty-queue timeout of the audio buffer *)
| ClearHistory.                         (* [poetry.clearHistory()] *)

Fixpoint replaceNth {A : Type} (i : nat) (x : option A) (l : list A) : list A :=
  match l, i with
  | [], _ => []
  | _ :: rest, 0 => match x with Some y => y :: rest | None => rest end
  | z :: rest, S j => z :: replaceNth j x rest
  end.

Definition step (a : Action) (w : Mil4dy) : Mil4dy :=
  match a with
  | CallGenerateClip r => spawnGenerateClip r w
  | IntervalTick r =>
      match liveIntervals w with
      | 0 => w
      | S _ => intervalTick r w
      end
  | PromiseSettles i r =>
      match nth_error (inFlight w) i with
      | Some ph =>
          let (w1, next) := generateClipResume r ph w in
          set_inFlight (replaceNth i next (inFlight w1)) w1
      | None => w
      end
  | CallStop r => stop r w
  | StartEnter init r => fst (startEnter init r w)
  | StartPlay r => startPlay r w
  | SourceEnded i r => withListeners r (AudioBuffer.sourceEnded cfg i) w
  | TimeoutFires r => withListeners r (AudioBuffer.timeoutFires cfg) w
  | ClearHistory => set_poetry (Poetry.clearHistory (poetry w)) w
  end.

(** The actions of a list, first to last. *)
Definition exec (acts : list Action) (w : Mil4dy) : Mil4dy :=
  fold_left (fun w a => step a w) acts w.


End WithConfig.

(** The text that [updateBufferUI] writes under the buffer bar.  The
    seconds are shown through [toFixed(0)]; the number before formatting
    stands for the text here. *)
Inductive BufferText :=
| BufferSeconds (seconds : float)         (* `Buffer: ${seconds}s` *)
| BufferPausedText                        (* 'Paused' *)
| BufferEmptyText.                        (* 'Buffer: Empty' *)

Definition bufferText (status : AudioBuffer.BufferStatus) : BufferText :=
  if AudioBuffer.statusIsPlaying status
  then BufferSeconds (AudioBuffer.totalBufferedSeconds status)
  else if AudioBuffer.statusIsPaused status then BufferPausedText
  else BufferEmptyText.

End Main.

(** * Properties *)

(** ** The camera ([src/modules/camera.js]) *)

Module Camera.

(** The fields of [CameraModule] that the code branches on: whether a
    media stream is held, and [isInitialized]. *)
Record CameraModule := mkCamera {
  hasStream : bool;
  isInitialized : bool
}.

(** [constructor()] *)
Definition new : CameraModule := {| hasStream := false; isInitialized := false |}.

(** [initialize]; [granted] says whether [getUserMedia] resolves and the
    video metadata loads.  The second component is false when the call
    throws. *)
Definition initialize (granted : bool) (cam : CameraModule) : CameraModule * bool :=
  if granted then ({| hasStream := true; isInitialized := true |}, true)
  else (cam, false).

(** How [captureFrame] ends: it throws, or it returns
    [dataUrl.split(",")[1]], which is [undefined] when the data URL has
    no comma. *)
Inductive Captured :=
| CaptureThrows
| CaptureReturns (base64 : option string).

Definition comma : ascii := ascii_of_nat 44.

(** [captureFrame]; [dataUrl] is what [canvas.toDataURL] gives for the
    current video frame. *)
Definition captureFrame (dataUrl : string) (cam : CameraModule) : Captured :=
  if negb (isInitialized cam) then CaptureThrows
  else CaptureReturns (nth_error (JsString.split comma dataUrl) 1).

(** [stop] *)
Definition stop (cam : CameraModule) : CameraModule :=
  if hasStream cam then {| hasStream := false; isInitialized := false |}
  else cam.

(** [isActive] *)
Definition isActive (cam : CameraModule) : bool :=
  isInitialized cam && hasStream cam.

End Camera.

(** ** The vision module ([src/modules/vision.js]) *)

Module Vision.

(** The fields of [VisionModule]; [client] is non-null exactly when
    [isInitialized] holds. *)
Record VisionModule := mkVision {
  lastDescription : string;
  isInitialized : bool
}.

(** [constructor()] *)
Definition new : VisionModule := {| lastDescription := ""; isInitialized := false |}.

(** [initialize] *)
Definition initialize (v : VisionModule) : VisionModule :=
  mkVision (lastDescription v) true.

(** [reset] *)
Definition reset (v : VisionModule) : VisionModule :=
  mkVision "" (isInitialized v).

(** The image URL that [analyzeFrame] sends:
    [`data:image/jpeg;base64,${imageBase64}`]. *)
Definition imageUrl (imageBase64 : string) : string :=
  ("data:image/jpeg;base64," ++ imageBase64)%string.

(** [toLowerCase] over the ASCII letters. *)
Definition lowerChar (c : ascii) : ascii :=
  let n := nat_of_ascii c in
  if (65 <=? n) && (n <=? 90) then ascii_of_nat (n + 32) else c.

Fixpoint toLowerCase (s : string) : string :=
  match s with
  | EmptyString => EmptyString
  | String c rest => String (lowerChar c) (toLowerCase rest)
  end.

(** [s.split(/\s+/)]: the pieces between maximal runs of white space;
    a string that begins or ends with white space gives an empty first
    or last piece.  [afterSpace] says that the character before was
    white space. *)
Fixpoint splitRuns (s : string) (afterSpace : bool) : list string :=
  match s with
  | EmptyString => [EmptyString]
  | String c rest =>
      if JsString.isWhiteSpace c
      then if afterSpace then splitRuns rest true
           else EmptyString :: splitRuns rest true
      else match splitRuns rest false with
           | piece :: pieces => String c piece :: pieces
           | [] => [String c EmptyString]
           end
  end.

Definition splitWhiteSpace (s : string) : list string := splitRuns s false.

(** [set.has(word)] for a set held as a list. *)
Definition has (set : list string) (word : string) : bool :=
  existsb (String.eqb word) set.

(** [new Set(words)]: the distinct words in the order of their first
    occurrence. *)
Fixpoint toSet (words : list string) : list string :=
  match words with
  | [] => []
  | w :: rest => w :: filter (fun x => negb (String.eqb x w)) (toSet rest)
  end.

(** [new Set(a.toLowerCase().split(/\s+/).filter(w => w.length > 3))] *)
Definition wordSet (a : string) : list string :=
  toSet (filter (fun w => 3 <? String.length w) (splitWhiteSpace (toLowerCase a))).

(** A length or size as a JavaScript number; array lengths are below
    2^32, where the conversion is exact. *)
Definition number (n : nat) : float :=
  PrimFloat.of_uint63 (Uint63.of_Z (Z.of_nat n)).

(** [calculateSimilarity] *)
Definition calculateSimilarity (a b : string) : float :=
  let wordsA := wordSet a in
  let wordsB := wordSet b in
  let intersection := filter (has wordsB) wordsA in
  let union := toSet (wordsA ++ wordsB) in
  PrimFloat.div (number (length intersection)) (number (length union)).

(** [detectSceneChange] *)
Definition detectSceneChange (newDescription : string) (v : VisionModule) : bool :=
  match lastDescription v with
  | EmptyString => true
  | _ => PrimFloat.ltb (calculateSimilarity newDescription (lastDescription v))
                       0.5%float
  end.

(** What the completion request of [analyzeFrame] comes to: a message
    content, or an error with its HTTP status if it has one. *)
Inductive ApiReply :=
| ApiContent (content : string)
| ApiError (status : option nat).

(** The errors [analyzeFrame] throws: the three it words itself, or the
    error of the request passed on. *)
Inductive VisionError :=
| InvalidApiKey        (* 'Invalid OpenAI API key. Check your .env file.' *)
| RateLimited          (* 'Rate limited by OpenAI. Please wait a moment.' *)
| ServiceError         (* 'OpenAI service error. Retrying...' *)
| Rethrown (status : option nat).

(** What [analyzeFrame] resolves to; the time stamps and the token
    count are left out. *)
Record SceneDescription := mkScene {
  description : string;
  isNewScene : bool
}.

(** The [catch] block of [analyzeFrame]: [error.status === 401] and so
    on. *)
Definition rethrow (status : option nat) : VisionError :=
  match status with
  | Some n =>
      if n =? 401 then InvalidApiKey
      else if n =? 429 then RateLimited
      else if n =? 500 then ServiceError
      else Rethrown status
  | None => Rethrown status
  end.

(** [analyzeFrame], awaited as a whole. *)
Definition analyzeFrame (reply : ApiReply) (v : VisionModule)
  : VisionModule * (SceneDescription + VisionError) :=
  let v1 := initialize v in
  match reply with
  | ApiContent content =>
      let fresh := detectSceneChange content v1 in
      (mkVision content (isInitialized v1), inl (mkScene content fresh))
  | ApiError status => (v1, inr (rethrow status))
  end.

End Vision.

(** ** Sample data *)

Module Samples.

Import AudioBuffer.

Definition clipA : AudioClip := mkClip "S1" 4%float true false.
Definition clipB : AudioClip := mkClip "S2" 5%float true false.
Definition clipC : AudioClip := mkClip "S3" 6%float true false.

(** A clip whose source node refuses to start. *)
Definition clipBad : AudioClip := mkClip "S0" 3%float true true.

(** A buffer right after a successful [initialize]. *)
Definition ready : AudioBufferManager := fst (initialize InitOk new).

End Samples.

(** ** Notions about the audio buffer used by the properties *)

Module BufferNotions.

Import Config AudioBuffer Samples.

(** The specification read literally: a call that returns emits a status update
    and, when the queue it leaves is at or below [minBufferClips], a
    low-buffer signal, both during the call. *)
Definition announcesLowBuffer (cfg : Timing) (clip : AudioClip)
  (st : AudioBufferManager) : Prop :=
  let st' := fst (addToQueue cfg clip st) in
  let during := skipn (length (emitted st)) (emitted st') in
  snd (addToQueue cfg clip st) = Returned ->
  (exists s, In (BufferUpdate s) during)
  /\ (length (queue st') <= minBufferClips cfg -> In BufferLow during).


Definition sumDurations (clips : list AudioClip) : float :=
  fold_left (fun total clip => PrimFloat.add total (duration clip)) clips 0%float.

(** What can happen to a buffer: it is told to play, clips arrive, the
    queue is cleared, the environment delivers [ended] events and
    timeouts, and the caller pauses, resumes or stops it. *)
Inductive ConsumerInput :=
| Play (r : InitReply)
| Enqueue (clip : AudioClip)
| Clear
| Ended (i : nat)
| TimeoutDue
| Pause
| Resume
| Stop.

Definition consume (cfg : Timing) (st : AudioBufferManager) (x : ConsumerInput)
  : AudioBufferManager :=
  match x with
  | Play r => fst (play cfg r st)
  | Enqueue clip => fst (addToQueue cfg clip st)
  | Clear => clearQueue st
  | Ended i => sourceEnded cfg i st
  | TimeoutDue => timeoutFires cfg st
  | Pause => pause st
  | Resume => resume cfg st
  | Stop => stop st
  end.

(** The inputs under which the buffer is left to its consumer loop. *)
Definition leftToLoop (x : ConsumerInput) : bool :=
  match x with
  | Pause | Resume | Stop => false
  | _ => true
  end.

Definition consumeAll (cfg : Timing) (inputs : list ConsumerInput)
  (st : AudioBufferManager) : AudioBufferManager :=
  fold_left (consume cfg) inputs st.

(** The clip that has started and not ended, as the specification counts it:
    only [ClipEnd] closes a clip. *)
Definition strictlyOpen (o : option AudioClip) (e : Event) : option AudioClip :=
  match e with
  | ClipStart c => Some c
  | ClipEnd _ => None
  | _ => o
  end.

(** The specification read literally: a clip starts only when the clip before it
    has ended. *)
Fixpoint endBeforeNextStart (o : option AudioClip) (tr : list Event) : Prop :=
  match tr with
  | [] => True
  | e :: rest =>
      match e with
      | ClipStart _ => o = None
      | ClipEnd c => o = Some c
      | _ => True
      end
      /\ endBeforeNextStart (strictlyOpen o e) rest
  end.

(** The same with a failed start closing the clip as well. *)
Definition stillOpen (o : option AudioClip) (e : Event) : option AudioClip :=
  match e with
  | ClipStart c => Some c
  | ClipEnd _ => None
  | PlaybackError => None
  | _ => o
  end.

Definition allowed (o : option AudioClip) (e : Event) : Prop :=
  match e with
  | ClipStart _ => o = None
  | ClipEnd c => o = Some c /\ startThrows c = false
  | PlaybackError => exists c, o = Some c /\ startThrows c = true
  | _ => True
  end.

Fixpoint endOrErrorBeforeNextStart (o : option AudioClip) (tr : list Event) : Prop :=
  match tr with
  | [] => True
  | e :: rest => allowed o e /\ endOrErrorBeforeNextStart (stillOpen o e) rest
  end.

Definition openAfter (tr : list Event) : option AudioClip :=
  fold_left stillOpen tr None.

(** The trace so far is in order and leaves [o] open. *)
Definition tracedList (o : option AudioClip) (tr : list Event) : Prop :=
  endOrErrorBeforeNextStart None tr /\ openAfter tr = o.

Definition traced (o : option AudioClip) (st : AudioBufferManager) : Prop :=
  tracedList o (emitted st).

(** The state of the loop between two handlers. *)
Inductive LoopState (st : AudioBufferManager) : Prop :=
| Idle :
    isPlaying st = false -> pendingEnded st = [] -> pendingTimeouts st = 0 ->
    traced None st -> LoopState st
| Waiting :
    isPlaying st = true -> pendingEnded st = [] -> pendingTimeouts st = 1 ->
    traced None st -> LoopState st
| Rendering (c : AudioClip) :
    isPlaying st = true -> pendingEnded st = [c] -> pendingTimeouts st = 0 ->
    startThrows c = false -> traced (Some c) st -> LoopState st.

Definition consumerInv (st : AudioBufferManager) : Prop :=
  isPaused st = false /\ LoopState st.

(** Side conditions that are field look-ups. *)
Ltac loop_fields :=
  cbn; try reflexivity; try assumption;
  try (unfold traced in *; cbn; assumption).

End BufferNotions.

(** ** Notions about the session used by the properties *)

Module SessionNotions.

Import Config Main.

(** The stage at which a run aborts, if any, read off the replies. *)
Inductive StageError :=
| CaptureError
| DescribeError
| ComposeError
| SynthesizeError.

Definition stageError (r : Replies) : option StageError :=
  match capture r, vision r, compose r, synth r with
  | None, _, _, _ => Some CaptureError
  | Some _, None, _, _ => Some DescribeError
  | Some _, Some _, None, _ => Some ComposeError
  | Some _, Some _, Some _, None => Some SynthesizeError
  | Some _, Some _, Some _, Some _ => None
  end.

(** Replies of a world in which every stage succeeds. *)
Definition allGood : Replies :=
  {| capture := Some "frame"%string;
     vision := Some "a desk by a window"%string;
     compose := Some "Light rests on the desk"%string;
     synth := Some Samples.clipA |}.

(** Replies of a world in which speech synthesis fails. *)
Definition noSpeech : Replies :=
  {| capture := Some "frame"%string;
     vision := Some "a desk by a window"%string;
     compose := Some "Light rests on the desk"%string;
     synth := None |}.

(** At most one activation of [generateClip] is suspended, and the flag
    says whether there is one. *)
Definition singleFlight (w : Mil4dy) : Prop :=
  (isGenerating w = false /\ inFlight w = [])
  \/ (isGenerating w = true /\ exists ph, inFlight w = [ph]).

(** The application while its first run waits for the scene description. *)
Definition busy : Mil4dy :=
  exec timing [StartEnter AudioBuffer.InitOk allGood; CallGenerateClip allGood] new.

(** The application after [start] has initialized the audio buffer. *)
Definition primed : Mil4dy := fst (startEnter AudioBuffer.InitOk allGood new).

(** The specification read literally: a run that aborts at any stage leaves the
    history of previous lines and the queue as they were and counts one
    error. *)
Definition abortLeavesContext (cfg : Timing) (r : Replies) (w : Mil4dy) : Prop :=
  isGenerating w = false -> stageError r <> None ->
  Poetry.previousLines (poetry (generateClip cfg r w))
  = Poetry.previousLines (poetry w)
  /\ AudioBuffer.queue (audioBuffer (generateClip cfg r w))
     = AudioBuffer.queue (audioBuffer w)
  /\ errors (generateClip cfg r w) = S (errors w).

(** The specification read literally: from a state in which the session is not
    running, no step of a suspended run changes the queue. *)
Definition discardsWhenStopped (cfg : Timing) (w : Mil4dy) : Prop :=
  isRunning w = false ->
  forall i r,
    AudioBuffer.queue (audioBuffer (step cfg (PromiseSettles i r) w))
    = AudioBuffer.queue (audioBuffer w).

(** A session is started, its run has the speech in hand and waits for
    the decoder, and the session is stopped. *)
Definition stoppedMidRun : Mil4dy :=
  exec timing
    [StartEnter AudioBuffer.InitOk allGood;
     CallGenerateClip allGood;
     PromiseSettles 0 allGood;
     PromiseSettles 0 allGood;
     PromiseSettles 0 allGood;
     CallStop allGood]
    new.

(** The clip that a run suspended at [ph] hands to the audio buffer when
    the stages still ahead of it answer with [r]: the text is the one
    composed (trimmed by [poetry.generate]), the audio the one
    synthesized. *)
Definition clipInHand (r : Replies) (ph : Phase) : option AudioBuffer.AudioClip :=
  let spoken (text : string) :=
    match synth r with
    | Some a => Some (AudioBuffer.mkClip text (AudioBuffer.duration a)
                        (AudioBuffer.blobDecodes a) (AudioBuffer.startThrows a))
    | None => None
    end in
  match ph with
  | AwaitVision =>
      match vision r, compose r with
      | Some _, Some content => spoken (JsString.trim content)
      | _, _ => None
      end
  | AwaitPoetry =>
      match compose r with
      | Some content => spoken (JsString.trim content)
      | None => None
      end
  | AwaitSpeech text => spoken text
  | AwaitDecode clip => Some clip
  end.

(** Whether a run suspended at [ph] has the initialization guard of
    [addToQueue] still ahead of it. *)
Definition guardAhead (ph : Phase) : bool :=
  match ph with
  | AwaitDecode _ => false
  | _ => true
  end.

(** A session is started and its run waits for the speech synthesis. *)
Definition duringSynthesis : Mil4dy :=
  exec timing
    [StartEnter AudioBuffer.InitOk allGood;
     CallGenerateClip allGood;
     PromiseSettles 0 allGood;
     PromiseSettles 0 allGood]
    new.

(** The specification read literally: when [start] reaches its first run, the
    history of previous lines is empty. *)
Definition historyResetAtStart (init : AudioBuffer.InitReply) (r : Replies)
  (w : Mil4dy) : Prop :=
  Poetry.previousLines (poetry (fst (startEnter init r w))) = [].

(** One session from start to stop. *)
Definition afterOneSession : Mil4dy :=
  stop allGood (start timing AudioBuffer.InitOk allGood allGood allGood new).

End SessionNotions.

(** ** Further notions about the audio buffer *)

Module PlaybackNotions.

Import Config AudioBuffer BufferNotions.

(** The clips whose start was announced, oldest first. *)
Fixpoint started (tr : list Event) : list AudioClip :=
  match tr with
  | [] => []
  | ClipStart c :: rest => c :: started rest
  | _ :: rest => started rest
  end.

(** The number of failed starts reported. *)
Fixpoint errorCount (tr : list Event) : nat :=
  match tr with
  | [] => 0
  | PlaybackError :: rest => S (errorCount rest)
  | _ :: rest => errorCount rest
  end.

(** The clips handed to [addToQueue] by a list of inputs, in order. *)
Fixpoint offered (inputs : list ConsumerInput) : list AudioClip :=
  match inputs with
  | [] => []
  | Enqueue c :: rest => c :: offered rest
  | _ :: rest => offered rest
  end.

(** [l1] is [l2] with some of its elements left out. *)
Inductive subsequence {A : Type} : list A -> list A -> Prop :=
| subsequence_nil : subsequence [] []
| subsequence_skip x l1 l2 : subsequence l1 l2 -> subsequence l1 (x :: l2)
| subsequence_keep x l1 l2 : subsequence l1 l2 -> subsequence (x :: l1) (x :: l2).

(** The clips started so far followed by the clips still queued. *)
Definition lineup (st : AudioBufferManager) : list AudioClip :=
  started (emitted st) ++ queue st.

(** A status that reports a pause only together with playback, and at
    most one clip more than the queue may hold. *)
Definition statusOk (cfg : Timing) (s : BufferStatus) : Prop :=
  (statusIsPaused s = true -> statusIsPlaying s = true)
  /\ queuedClips s <= maxBufferClips cfg + 1.

(** Every status handed to the status listener so far is such a status. *)
Definition statusesOk (cfg : Timing) (tr : list Event) : Prop :=
  forall s, In (BufferUpdate s) tr -> statusOk cfg s.

(** The buffer is paused only while playing, its queue is within its
    bound, and so were its reports. *)
Definition healthy (cfg : Timing) (st : AudioBufferManager) : Prop :=
  (isPaused st = true -> isPlaying st = true)
  /\ length (queue st) <= maxBufferClips cfg
  /\ statusesOk cfg (emitted st).

(** No clip starts while the buffer is paused or stopped. *)
Definition dormant (st : AudioBufferManager) : Prop :=
  isPlaying st = false \/ isPaused st = true.

(** The inputs that wake a paused buffer. *)
Definition wakes (x : ConsumerInput) : bool :=
  match x with
  | Play _ | Resume => true
  | _ => false
  end.

(** The inputs that wake a stopped buffer. *)
Definition restarts (x : ConsumerInput) : bool :=
  match x with
  | Play _ => true
  | _ => false
  end.

End PlaybackNotions.

(** ** Further notions about the session and the history *)

Module HistoryNotions.

Import Config Main.

(** The clips started or queued are covered by the counter. *)
Definition counted (w : Mil4dy) : Prop :=
  length (PlaybackNotions.lineup (audioBuffer w)) <= clipsGenerated w.

(** A piece of the audio buffer's code only adds to the listener log. *)
Definition appends (f : AudioBuffer.AudioBufferManager -> AudioBuffer.AudioBufferManager)
  : Prop :=
  forall st, exists added, AudioBuffer.emitted (f st) = AudioBuffer.emitted st ++ added.

(** Every failed start that was reported is in the error count. *)
Definition failuresCounted (w : Mil4dy) : Prop :=
  PlaybackNotions.errorCount (AudioBuffer.emitted (audioBuffer w)) <= errors w.

(** [c] occurs in [s]. *)
Fixpoint hasChar (c : ascii) (s : string) : bool :=
  match s with
  | EmptyString => false
  | String d rest => Ascii.eqb d c || hasChar c rest
  end.

(** A line as the history stores it: some text on it, and no line break
    in it. *)
Definition properLine (line : string) : Prop :=
  JsString.truthy (JsString.trim line) = true
  /\ hasChar JsString.newline line = false.

(** The history is within its bound of twelve lines, the bound is the
    one the constructor set, and every line is a proper line. *)
Definition historyOk (p : Poetry.PoetryModule) : Prop :=
  Poetry.maxPreviousLines p = 12
  /\ length (Poetry.previousLines p) <= 12
  /\ Forall properLine (Poetry.previousLines p).

(** The value of [frame] in [generateClip] as the replies of a run
    record it: nothing when [captureFrame] throws; [undefined] reads
    "undefined" once [analyzeFrame] puts it into the image URL. *)
Definition captureReply (c : Camera.Captured) : option string :=
  match c with
  | Camera.CaptureThrows => None
  | Camera.CaptureReturns (Some base64) => Some base64
  | Camera.CaptureReturns None => Some "undefined"%string
  end.

(** The replies of a run whose frame comes from this camera. *)
Definition withCamera (cam : Camera.CameraModule) (dataUrl : string) (r : Replies)
  : Replies :=
  mkReplies (captureReply (Camera.captureFrame dataUrl cam))
            (vision r) (compose r) (synth r).

End HistoryNotions.

(** ** Shared facts about the audio buffer *)

Module AudioBufferFacts.

Import Config AudioBuffer.

Lemma addToQueue_cases (cfg : Timing) (clip : AudioClip) (st : AudioBufferManager) :
  addToQueue cfg clip st = (enqueueDecoded cfg clip st, Returned)
  \/ exists e, addToQueue cfg clip st = (st, Threw e).
Proof.
  unfold addToQueue.
  destruct (isInitialized st); simpl; [|right; eauto].
  destruct (blobDecodes clip); [left|right]; eauto.
Qed.


Lemma playNextFrom_isPlaying (cfg : Timing) (q : list AudioClip) :
  forall st, isPlaying (playNextFrom cfg q st) = isPlaying st.
Proof.
  induction q as [|c rest IH]; intros st; cbn [playNextFrom];
    destruct (negb (isPlaying st) || isPaused st); try reflexivity.
  destruct (startThrows c); [rewrite IH|];
    destruct (length (c :: rest) <=? minBufferClips cfg); reflexivity.
Qed.

(** After [play] on an initialized buffer whose context resumes, the
    buffer is playing. *)
Lemma play_isPlaying (cfg : Timing) (st : AudioBufferManager) :
  isInitialized st = true ->
  isPlaying (fst (play cfg InitOk st)) = true.
Proof.
  intros Hi. unfold play. rewrite Hi.
  destruct (isPlaying st && negb (isPaused st)) eqn:Hb; cbn [fst].
  - now apply andb_true_iff in Hb.
  - unfold playNext. now rewrite playNextFrom_isPlaying.
Qed.

End AudioBufferFacts.

(** ** The queue bound *)

Module QueueBound.

Import Config AudioBuffer AudioBufferFacts Samples.

Lemma trim_bounded (cfg : Timing) (q : list AudioClip) :
  length (trim cfg q) <= maxBufferClips cfg.
Proof.
  induction q as [|c rest IH]; simpl.
  - lia.
  - destruct (maxBufferClips cfg <? S (length rest)) eqn:E.
    + exact IH.
    + apply Nat.ltb_ge in E. simpl. exact E.
Qed.

(** The loop keeps the newest [maxBufferClips] entries. *)
Lemma trim_keeps_newest (cfg : Timing) (q : list AudioClip) :
  trim cfg q = skipn (length q - maxBufferClips cfg) q.
Proof.
  induction q as [|c rest IH]; cbn [trim length].
  - reflexivity.
  - destruct (maxBufferClips cfg <? S (length rest)) eqn:E.
    + apply Nat.ltb_lt in E.
      replace (S (length rest) - maxBufferClips cfg)
        with (S (length rest - maxBufferClips cfg)) by lia.
      simpl. exact IH.
    + apply Nat.ltb_ge in E.
      replace (S (length rest) - maxBufferClips cfg) with 0 by lia.
      reflexivity.
Qed.

Lemma enqueueDecoded_queue (cfg : Timing) (clip : AudioClip) (st : AudioBufferManager) :
  queue (enqueueDecoded cfg clip st) = trim cfg (queue st ++ [clip]).
Proof. reflexivity. Qed.

Lemma addToQueue_bounded (cfg : Timing) (clip : AudioClip) (st : AudioBufferManager) :
  length (queue st) <= maxBufferClips cfg ->
  length (queue (fst (addToQueue cfg clip st))) <= maxBufferClips cfg.
Proof.
  intros H. destruct (addToQueue_cases cfg clip st) as [E|[e E]]; rewrite E; simpl.
  - apply trim_bounded.
  - exact H.
Qed.

Lemma enqueueAll_bounded (cfg : Timing) (clips : list AudioClip) :
  forall st,
    length (queue st) <= maxBufferClips cfg ->
    Forall (fun s => length (queue s) <= maxBufferClips cfg)
           (enqueueAll cfg clips st).
Proof.
  induction clips as [|clip rest IH]; intros st H; simpl.
  - constructor.
  - pose proof (addToQueue_bounded cfg clip st H) as H1.
    constructor; [exact H1 | apply IH; exact H1].
Qed.

(** C1.  After every call of any sequence of [addToQueue] calls the
    queue holds at most [maxBufferClips] clips; a call that succeeds
    leaves the newest [maxBufferClips] entries of the old queue followed
    by the new clip, so what is dropped is dropped from the head; and
    with [minBufferClips = 1], [maxBufferClips = 2] the calls for S1, S2,
    S3 on an empty, initialized buffer leave the queues [S1], [S1; S2]
    and finally [S2; S3]. *)
Theorem addToQueue_bounded_drops_oldest :
  (forall cfg clips st,
      length (queue st) <= maxBufferClips cfg ->
      Forall (fun s => length (queue s) <= maxBufferClips cfg)
             (enqueueAll cfg clips st))
  /\ (forall cfg clip st st',
         addToQueue cfg clip st = (st', Returned) ->
         queue st' = skipn (length (queue st ++ [clip]) - maxBufferClips cfg)
                           (queue st ++ [clip]))
  /\ (forall S1 S2 S3 st,
         isInitialized st = true -> queue st = [] ->
         blobDecodes S1 = true -> blobDecodes S2 = true -> blobDecodes S3 = true ->
         map queue (enqueueAll (mkTiming 1 2) [S1; S2; S3] st)
         = [[S1]; [S1; S2]; [S2; S3]]).
Proof.
  split; [|split].
  - intros cfg clips st H. now apply enqueueAll_bounded.
  - intros cfg clip st st' H.
    destruct (addToQueue_cases cfg clip st) as [E|[e E]]; rewrite E in H.
    + injection H as <-. rewrite enqueueDecoded_queue. apply trim_keeps_newest.
    + discriminate.
  - intros S1 S2 S3 st Hi Hq H1 H2 H3.
    destruct st as [ctx g q cp cs pl pa ini ev pe pt].
    simpl in Hi, Hq. subst ini q.
    cbn [enqueueAll map]. unfold addToQueue at 1. cbn. rewrite H1.
    unfold addToQueue at 1. cbn. rewrite H2.
    unfold addToQueue at 1. cbn. rewrite H3.
    reflexivity.
Qed.

Lemma addToQueue_bounded_drops_oldest_witness :
  Forall (fun s => length (queue s) <= 2)
         (enqueueAll (mkTiming 1 2) [clipA; clipB; clipC] ready)
  /\ queue (fst (addToQueue (mkTiming 1 2) clipC
                   (set_queue [clipA; clipB] ready))) = [clipB; clipC]
  /\ map queue (enqueueAll (mkTiming 1 2) [clipA; clipB; clipC] ready)
     = [[clipA]; [clipA; clipB]; [clipB; clipC]].
Proof.
  destruct addToQueue_bounded_drops_oldest as [Hall [Hdrop Hscen]].
  split; [|split].
  - apply (Hall (mkTiming 1 2) [clipA; clipB; clipC] ready). simpl. lia.
  - rewrite (Hdrop (mkTiming 1 2) clipC (set_queue [clipA; clipB] ready)
               (fst (addToQueue (mkTiming 1 2) clipC (set_queue [clipA; clipB] ready)))
               eq_refl).
    reflexivity.
  - apply (Hscen clipA clipB clipC ready); reflexivity.
Defined.

End QueueBound.

(** ** What an enqueue announces *)

Module EnqueueSignals.

Import Config AudioBuffer AudioBufferFacts Samples BufferNotions.

Lemma playNextFrom_emits_low (cfg : Timing) (q : list AudioClip) (st : AudioBufferManager) :
  isPlaying st = true -> isPaused st = false ->
  length q <= minBufferClips cfg ->
  exists later, emitted (playNextFrom cfg q st) = emitted st ++ BufferLow :: later.
Proof.
  revert st. induction q as [|clip rest IH]; intros st Hp Hz Hlen.
  - cbn. rewrite Hp, Hz. cbn. exists []. reflexivity.
  - cbn [playNextFrom]. rewrite Hp, Hz. cbn [negb orb].
    apply Nat.leb_le in Hlen. rewrite Hlen.
    destruct (startThrows clip).
    + apply Nat.leb_le in Hlen. cbn [length] in Hlen.
      edestruct (IH (emit PlaybackError
                       (set_currentSource (Some clip)
                          (notifyBufferUpdate
                             (emit (ClipStart clip)
                                (set_currentlyPlaying (Some clip)
                                   (set_queue rest (emit BufferLow st))))))))
        as [later E]; [exact Hp | exact Hz | lia |].
      rewrite E. cbn. rewrite <- !app_assoc. cbn. eauto.
    + cbn. rewrite <- !app_assoc. cbn. eauto.
Qed.

(** C4 (amended).  A call of [addToQueue] that returns invokes the
    status listener exactly once, with the status taken after the push
    and before the trim, and invokes nothing else: no low-buffer signal
    belongs to an enqueue.  The low-buffer signal comes from [playNext]:
    whenever it runs while playing, not paused, with at most
    [minBufferClips] clips queued, it emits the signal first. *)
Theorem addToQueue_emits_status_only (cfg : Timing) :
  (forall clip st st',
      addToQueue cfg clip st = (st', Returned) ->
      emitted st'
      = emitted st
          ++ [BufferUpdate (getStatus (set_queue (queue st ++ [clip]) st))])
  /\ (forall st,
         isPlaying st = true -> isPaused st = false ->
         length (queue st) <= minBufferClips cfg ->
         exists later, emitted (playNext cfg st) = emitted st ++ BufferLow :: later).
Proof.
  split.
  - intros clip st st' H.
    destruct (addToQueue_cases cfg clip st) as [E|[e E]]; rewrite E in H.
    + injection H as <-. reflexivity.
    + discriminate.
  - intros st Hp Hz Hlen. now apply playNextFrom_emits_low.
Qed.

Lemma addToQueue_emits_status_only_witness :
  emitted (fst (addToQueue timing clipA ready))
  = [BufferUpdate (mkStatus 1 4%float false false None)]
  /\ exists later,
       emitted (playNext timing
                  (set_isPlaying true
                     (set_queue [clipA] ready)))
       = BufferLow :: later.
Proof.
  destruct (addToQueue_emits_status_only timing) as [Hstatus Hlow].
  split.
  - rewrite (Hstatus clipA ready
               (fst (addToQueue timing clipA ready)) eq_refl).
    reflexivity.
  - apply (Hlow (set_isPlaying true (set_queue [clipA] ready)));
      [reflexivity | reflexivity | simpl; lia].
Defined.

(** C4, as stated, fails: with the repository's configuration the first
    clip is enqueued into an empty, initialized buffer, the call
    returns, one clip is queued, which is below [minBufferClips = 2],
    and the only listener invoked is the status listener. *)
Lemma addToQueue_low_signal_counterexample :
  ~ announcesLowBuffer timing clipA ready.
Proof.
  unfold announcesLowBuffer. intros H.
  destruct (H eq_refl) as [_ Hlow].
  assert (Hin : In BufferLow
                  [BufferUpdate (mkStatus 1 4%float false false None)]).
  { apply Hlow. simpl. lia. }
  destruct Hin as [Hin|[]]. discriminate Hin.
Qed.

End EnqueueSignals.

(** ** Calls before [initialize] *)

Module BeforeInitialize.

Import Config AudioBuffer AudioBufferFacts Samples BufferNotions.







End BeforeInitialize.

(** ** What the status counts *)

Module StatusSnapshot.

Import Config AudioBuffer AudioBufferFacts Samples BufferNotions.

(** C10.  A status snapshot counts and sums the clips of the queue and
    nothing else.  When [playNext] takes the head of the queue and its
    source starts, the clip is the one being played and rendered, the
    queue is the former tail, and the snapshot, which is also the one
    just handed to the status listener, reports the length and the
    summed durations of that tail while naming the clip as currently
    playing. *)
Theorem getStatus_excludes_playing_clip :
  (forall st,
      queuedClips (getStatus st) = length (queue st)
      /\ totalBufferedSeconds (getStatus st) = sumDurations (queue st))
  /\ (forall cfg st clip rest,
         isPlaying st = true -> isPaused st = false ->
         queue st = clip :: rest -> startThrows clip = false ->
         let st' := playNext cfg st in
         queue st' = rest
         /\ currentlyPlaying st' = Some clip
         /\ In clip (pendingEnded st')
         /\ getStatus st'
            = mkStatus (length rest) (sumDurations rest) true false
                       (Some (text clip, duration clip))
         /\ exists earlier,
              emitted st' = earlier ++ [BufferUpdate (getStatus st')]).
Proof.
  split.
  - intros st. split; reflexivity.
  - intros cfg st clip rest Hp Hz Hq Hs st'. subst st'.
    unfold playNext. rewrite Hq. cbn [playNextFrom].
    rewrite Hp, Hz, Hs. cbn [negb orb].
    destruct (length (clip :: rest) <=? minBufferClips cfg);
      (split; [reflexivity|]; split; [reflexivity|];
       split; [cbn; apply in_or_app; right; left; reflexivity|];
       split;
       [ unfold getStatus, getTotalBufferedSeconds, sumDurations; cbn;
         rewrite Hp, Hz; reflexivity
       | eexists; cbn; reflexivity ]).
Qed.

Lemma getStatus_excludes_playing_clip_witness :
  let st' := playNext timing
               (set_isPlaying true (set_queue [clipA; clipB; clipC] ready)) in
  currentlyPlaying st' = Some clipA
  /\ getStatus st' = mkStatus 2 11%float true false (Some ("S1"%string, 4%float)).
Proof.
  destruct getStatus_excludes_playing_clip as [_ H].
  destruct (H timing (set_isPlaying true (set_queue [clipA; clipB; clipC] ready))
              clipA [clipB; clipC] eq_refl eq_refl eq_refl eq_refl)
    as [_ [Hcur [_ [Hstatus _]]]].
  split; [exact Hcur | exact Hstatus].
Defined.

End StatusSnapshot.

(** ** The order of clip events *)

Module ClipOrder.

Import Config AudioBuffer AudioBufferFacts Samples BufferNotions.

Lemma endOrError_app (tr1 tr2 : list Event) :
  forall o,
    endOrErrorBeforeNextStart o (tr1 ++ tr2)
    <-> endOrErrorBeforeNextStart o tr1
        /\ endOrErrorBeforeNextStart (fold_left stillOpen tr1 o) tr2.
Proof.
  induction tr1 as [|e tr1 IH]; intros o; cbn.
  - tauto.
  - rewrite IH. tauto.
Qed.

Lemma tracedList_snoc (o : option AudioClip) (e : Event) (tr : list Event) :
  tracedList o tr -> allowed o e -> tracedList (stillOpen o e) (tr ++ [e]).
Proof.
  intros [Hord Hopen] Hal. unfold tracedList, openAfter in *.
  split.
  - apply endOrError_app. split; [exact Hord|]. rewrite Hopen. cbn. tauto.
  - rewrite fold_left_app, Hopen. reflexivity.
Qed.

(** A handler that leaves the playback fields alone and at most reports
    a status keeps the loop where it is. *)
Lemma consumerInv_quiet (st st' : AudioBufferManager) :
  isPlaying st' = isPlaying st -> isPaused st' = isPaused st ->
  pendingEnded st' = pendingEnded st -> pendingTimeouts st' = pendingTimeouts st ->
  (emitted st' = emitted st \/ exists s, emitted st' = emitted st ++ [BufferUpdate s]) ->
  consumerInv st -> consumerInv st'.
Proof.
  intros Hp Hz He Ht Hem [Hpaused Hloop].
  assert (Htr : forall o, traced o st -> traced o st').
  { intros o H. unfold traced in *. destruct Hem as [->|[s ->]]; [exact H|].
    apply (tracedList_snoc o (BufferUpdate s) _ H). exact I. }
  split; [congruence|].
  destruct Hloop as [H1 H2 H3 H4|H1 H2 H3 H4|c H1 H2 H3 H4 H5].
  - apply Idle; try congruence. now apply Htr.
  - apply Waiting; try congruence. now apply Htr.
  - apply (Rendering st' c); try congruence. now apply Htr.
Qed.

Lemma playNextFrom_inv (cfg : Timing) (q : list AudioClip) :
  forall st,
    isPlaying st = true -> isPaused st = false ->
    pendingEnded st = [] -> pendingTimeouts st = 0 ->
    traced None st ->
    consumerInv (playNextFrom cfg q st).
Proof.
  induction q as [|clip rest IH]; intros st Hp Hz He Ht Htr;
    cbn [playNextFrom]; rewrite Hp, Hz; cbn [negb orb].
  - cbn [length Nat.leb]. split; [exact Hz|].
    apply Waiting; cbn; try assumption; try (now rewrite Ht).
    unfold traced. cbn. apply (tracedList_snoc None BufferLow _ Htr). exact I.
  - set (st1 := if length (clip :: rest) <=? minBufferClips cfg
                then emit BufferLow st else st).
    assert (Hp1 : isPlaying st1 = true) by (subst st1; destruct (_ <=? _); exact Hp).
    assert (Hz1 : isPaused st1 = false) by (subst st1; destruct (_ <=? _); exact Hz).
    assert (He1 : pendingEnded st1 = []) by (subst st1; destruct (_ <=? _); exact He).
    assert (Ht1 : pendingTimeouts st1 = 0) by (subst st1; destruct (_ <=? _); exact Ht).
    assert (Htr1 : traced None st1).
    { subst st1; destruct (_ <=? _); [|exact Htr].
      unfold traced. cbn. apply (tracedList_snoc None BufferLow _ Htr). exact I. }
    clearbody st1.
    assert (Htr3 : tracedList (Some clip)
                     ((emitted st1 ++ [ClipStart clip])
                        ++ [BufferUpdate
                              (getStatus
                                 (emit (ClipStart clip)
                                    (set_currentlyPlaying (Some clip)
                                       (set_queue rest st1))))])).
    { apply (tracedList_snoc (Some clip) (BufferUpdate _)); [|exact I].
      apply (tracedList_snoc None (ClipStart clip) _ Htr1). reflexivity. }
    destruct (startThrows clip) eqn:Hs.
    + apply IH; cbn; try assumption.
      unfold traced. cbn.
      apply (tracedList_snoc (Some clip) PlaybackError _ Htr3).
      exists clip. split; [reflexivity|exact Hs].
    + split; [exact Hz1|].
      apply (Rendering _ clip); cbn; try assumption.
      now rewrite He1.
Qed.

Lemma playNext_inv (cfg : Timing) (st : AudioBufferManager) :
  isPlaying st = true -> isPaused st = false ->
  pendingEnded st = [] -> pendingTimeouts st = 0 ->
  traced None st ->
  consumerInv (playNext cfg st).
Proof. apply playNextFrom_inv. Qed.

Lemma onended_inv (cfg : Timing) (c : AudioClip) (st : AudioBufferManager) :
  isPlaying st = true -> isPaused st = false ->
  pendingEnded st = [] -> pendingTimeouts st = 0 ->
  startThrows c = false -> traced (Some c) st ->
  consumerInv (onended cfg c st).
Proof.
  intros Hp Hz He Ht Hs Htr. unfold onended. cbv zeta.
  replace (isPlaying (emit (ClipEnd c)
             (set_currentlyPlaying None (set_currentSource None st))))
    with true by (symmetry; exact Hp).
  replace (isPaused (emit (ClipEnd c)
             (set_currentlyPlaying None (set_currentSource None st))))
    with false by (symmetry; exact Hz).
  cbn [negb andb].
  apply playNext_inv; cbn; try assumption.
  unfold traced. cbn.
  apply (tracedList_snoc (Some c) (ClipEnd c) _ Htr). split; [reflexivity|exact Hs].
Qed.

Lemma consume_inv (cfg : Timing) (x : ConsumerInput) (st : AudioBufferManager) :
  leftToLoop x = true ->
  consumerInv st -> consumerInv (consume cfg st x).
Proof.
  intros Hx Hinv.
  destruct x as [r|clip| |i| | | |]; try discriminate Hx; cbn [consume].
  - (* play *)
    unfold play.
    assert (Hinit : consumerInv (fst (initialize r st))).
    { unfold initialize. destruct (isInitialized st); [exact Hinv|].
      destruct r; cbn [fst]; try exact Hinv;
        (eapply consumerInv_quiet; [..|exact Hinv]; try reflexivity; left; reflexivity). }
    assert (Hsame : isInitialized st = true -> fst (initialize r st) = st).
    { intros Hi. unfold initialize. now rewrite Hi. }
    destruct (isInitialized st) eqn:Hi.
    + destruct (isPlaying st && negb (isPaused st)) eqn:Hb; [exact Hinv|].
      destruct Hinv as [Hz Hloop]. rewrite Hz in Hb. cbn in Hb.
      rewrite andb_true_r in Hb.
      destruct r; cbn [fst]; try (split; assumption);
        (destruct Hloop as [H1 H2 H3 H4|H1 H2 H3 H4|c H1 H2 H3 H4 H5];
         try congruence; apply playNext_inv; loop_fields).
    + destruct (initialize r st) as [st1 [|e]] eqn:Einit; cbn [fst] in *.
      * destruct (isPlaying st1 && negb (isPaused st1)) eqn:Hb; [exact Hinit|].
        destruct Hinit as [Hz Hloop]. rewrite Hz in Hb. cbn in Hb.
        rewrite andb_true_r in Hb.
        destruct r; cbn [fst];
          (destruct Hloop as [H1 H2 H3 H4|H1 H2 H3 H4|c H1 H2 H3 H4 H5];
           try congruence; apply playNext_inv; loop_fields).
      * exact Hinit.
  - (* addToQueue *)
    destruct (addToQueue_cases cfg clip st) as [E|[e E]]; rewrite E; cbn [fst];
      [|exact Hinv].
    eapply consumerInv_quiet; [..|exact Hinv]; try reflexivity.
    right. eexists. reflexivity.
  - (* clearQueue *)
    eapply consumerInv_quiet; [..|exact Hinv]; try reflexivity.
    right. eexists. reflexivity.
  - (* an ended event *)
    unfold sourceEnded. destruct Hinv as [Hz Hloop].
    destruct Hloop as [H1 H2 H3 H4|H1 H2 H3 H4|c H1 H2 H3 H4 H5].
    + rewrite H2. destruct i; cbn; split; try assumption; now apply Idle.
    + rewrite H2. destruct i; cbn; split; try assumption; now apply Waiting.
    + rewrite H2. destruct i as [|j].
      * cbn [nth_error removeNth]. apply onended_inv; loop_fields.
      * destruct j; cbn; (split; [assumption|]); now apply (Rendering st c).
  - (* a timeout *)
    unfold timeoutFires. destruct Hinv as [Hz Hloop].
    destruct Hloop as [H1 H2 H3 H4|H1 H2 H3 H4|c H1 H2 H3 H4 H5]; rewrite H3.
    + split; [assumption|]. now apply Idle.
    + apply playNext_inv; loop_fields.
    + split; [assumption|]. now apply (Rendering st c).
Qed.

Lemma consumeAll_inv (cfg : Timing) (inputs : list ConsumerInput) :
  forallb leftToLoop inputs = true ->
  forall st, consumerInv st -> consumerInv (consumeAll cfg inputs st).
Proof.
  induction inputs as [|x rest IH]; intros Hall st H; cbn.
  - exact H.
  - cbn in Hall. apply andb_true_iff in Hall. destruct Hall as [Hx Hrest].
    apply IH; [exact Hrest|]. now apply consume_inv.
Qed.

Lemma new_inv : consumerInv new.
Proof.
  split; [reflexivity|].
  apply Idle; try reflexivity. split; [exact I | reflexivity].
Qed.

Lemma strict_without_errors (tr : list Event) :
  forall o,
    endOrErrorBeforeNextStart o tr -> ~ In PlaybackError tr ->
    endBeforeNextStart o tr.
Proof.
  induction tr as [|e rest IH]; intros o H Hno; cbn in *.
  - exact I.
  - destruct H as [Hal Hrest].
    assert (Hno' : ~ In PlaybackError rest) by tauto.
    destruct e; cbn in *; try (split; [tauto|]; now apply IH).
    exfalso. apply Hno. left. reflexivity.
Qed.

(** C9 (amended).  In every trace the consumer loop produces, from a
    fresh buffer and under any sequence of play requests, arriving
    clips, queue clearings, [ended] events and timeouts, with no pause,
    resume or stop in between, a clip starts only when no clip is open.  A started clip is closed by its own
    [onClipEnd], which is emitted only for a clip whose source did
    start; a clip whose source fails to start gets no [onClipEnd] and is
    closed by the error report, which is emitted before the next clip
    starts.  In a trace without an error report every clip start is
    preceded by the end of the clip before it. *)
Theorem clipEnd_or_error_before_next_clipStart (cfg : Timing)
  (inputs : list ConsumerInput) :
  forallb leftToLoop inputs = true ->
  endOrErrorBeforeNextStart None (emitted (consumeAll cfg inputs new))
  /\ (~ In PlaybackError (emitted (consumeAll cfg inputs new)) ->
      endBeforeNextStart None (emitted (consumeAll cfg inputs new))).
Proof.
  intros Hall.
  assert (H : endOrErrorBeforeNextStart None (emitted (consumeAll cfg inputs new))).
  { destruct (consumeAll_inv cfg inputs Hall new new_inv) as [_ Hloop].
    destruct Hloop as [_ _ _ [H _]|_ _ _ [H _]|c _ _ _ _ [H _]]; exact H. }
  split; [exact H|].
  intros Hno. now apply strict_without_errors.
Qed.

Lemma clipEnd_or_error_before_next_clipStart_witness :
  endBeforeNextStart None
    (emitted (consumeAll timing
                [Play InitOk; Enqueue clipA; Enqueue clipB; TimeoutDue; Ended 0]
                new)).
Proof.
  apply (clipEnd_or_error_before_next_clipStart timing
           [Play InitOk; Enqueue clipA; Enqueue clipB; TimeoutDue; Ended 0]
           eq_refl).
  vm_compute. intros H.
  repeat (destruct H as [H|H]; [discriminate H|]). exact H.
Defined.

(** C9, as stated, fails for a failed start: the
    buffer plays, a clip whose source will not start and a second clip
    arrive, and the timeout runs the loop.  The second clip starts while
    the first has had no [onClipEnd]. *)
Lemma failed_start_counterexample :
  ~ endBeforeNextStart None
      (emitted (consumeAll timing
                  [Play InitOk; Enqueue clipBad; Enqueue clipB; TimeoutDue]
                  new)).
Proof.
  vm_compute. intros H.
  repeat match goal with
         | H : _ /\ _ |- _ => destruct H
         end.
  discriminate.
Qed.

(** Why the loop must be left alone: a source that [pause] has stopped
    delivers its [ended] event later.  When [resume] comes first, the
    next clip starts while the paused clip is still open, and neither
    reading of the order holds. *)
Remark resume_before_ended_breaks_order :
  ~ endOrErrorBeforeNextStart None
      (emitted (consumeAll timing
                  [Play InitOk; Enqueue clipA; Enqueue clipB; TimeoutDue;
                   Pause; Resume; Ended 0]
                  new)).
Proof.
  vm_compute. intros H.
  repeat match goal with
         | H : _ /\ _ |- _ => destruct H
         end.
  discriminate.
Qed.

End ClipOrder.

(** ** Facts about the session shared by the properties below *)

Module MainFacts.

Import Config Main SessionNotions.

Lemma singleFlight_same (w w' : Mil4dy) :
  isGenerating w' = isGenerating w -> inFlight w' = inFlight w ->
  singleFlight w -> singleFlight w'.
Proof. unfold singleFlight. intros -> ->. tauto. Qed.

Lemma generateClipEnter_busy (r : Replies) (w : Mil4dy) :
  isGenerating w = true -> generateClipEnter r w = (w, None).
Proof. intros H. unfold generateClipEnter. now rewrite H. Qed.

Lemma spawn_singleFlight (r : Replies) (w : Mil4dy) :
  singleFlight w -> singleFlight (spawnGenerateClip r w).
Proof.
  intros H. unfold spawnGenerateClip, generateClipEnter.
  destruct (isGenerating w) eqn:Hg; [exact H|].
  destruct H as [[_ Hin]|[Hg' _]]; [|congruence].
  destruct (capture r).
  - right. cbn. rewrite Hin. split; [reflexivity | eexists; reflexivity].
  - left. cbn. split; [reflexivity | exact Hin].
Qed.

Lemma spawn_frame (r : Replies) (w : Mil4dy) :
  audioBuffer (spawnGenerateClip r w) = audioBuffer w
  /\ isRunning (spawnGenerateClip r w) = isRunning w
  /\ poetry (spawnGenerateClip r w) = poetry w
  /\ clipsGenerated (spawnGenerateClip r w) = clipsGenerated w.
Proof.
  unfold spawnGenerateClip, generateClipEnter.
  destruct (isGenerating w); [auto|]. destruct (capture r); cbn; auto.
Qed.

Lemma listener_singleFlight (r : Replies) (e : AudioBuffer.Event) (w : Mil4dy) :
  singleFlight w -> singleFlight (listener r w e).
Proof.
  intros H. destruct e; cbn; try exact H.
  destruct (isRunning w && negb (isGenerating w)); [|exact H].
  now apply spawn_singleFlight.
Qed.

Lemma listener_frame (r : Replies) (e : AudioBuffer.Event) (w : Mil4dy) :
  audioBuffer (listener r w e) = audioBuffer w
  /\ isRunning (listener r w e) = isRunning w
  /\ poetry (listener r w e) = poetry w
  /\ clipsGenerated (listener r w e) = clipsGenerated w.
Proof.
  destruct e; cbn; auto.
  destruct (isRunning w && negb (isGenerating w)); auto using spawn_frame.
Qed.

Lemma listeners_singleFlight (r : Replies) (events : list AudioBuffer.Event) :
  forall w, singleFlight w -> singleFlight (fold_left (listener r) events w).
Proof.
  induction events as [|e rest IH]; intros w H; cbn; [exact H|].
  apply IH. now apply listener_singleFlight.
Qed.

Lemma listeners_frame (r : Replies) (events : list AudioBuffer.Event) :
  forall w,
    audioBuffer (fold_left (listener r) events w) = audioBuffer w
    /\ isRunning (fold_left (listener r) events w) = isRunning w
    /\ poetry (fold_left (listener r) events w) = poetry w
    /\ clipsGenerated (fold_left (listener r) events w) = clipsGenerated w.
Proof.
  induction events as [|e rest IH]; intros w; cbn; [auto|].
  destruct (IH (listener r w e)) as [H1 [H2 [H3 H4]]].
  destruct (listener_frame r e w) as [G1 [G2 [G3 G4]]].
  repeat split; congruence.
Qed.

Lemma withListeners_singleFlight (r : Replies)
  (f : AudioBuffer.AudioBufferManager -> AudioBuffer.AudioBufferManager) (w : Mil4dy) :
  singleFlight w -> singleFlight (withListeners r f w).
Proof.
  intros H. unfold withListeners. apply listeners_singleFlight.
  now apply (singleFlight_same w).
Qed.

Lemma withListeners_frame (r : Replies)
  (f : AudioBuffer.AudioBufferManager -> AudioBuffer.AudioBufferManager) (w : Mil4dy) :
  audioBuffer (withListeners r f w) = f (audioBuffer w)
  /\ isRunning (withListeners r f w) = isRunning w
  /\ poetry (withListeners r f w) = poetry w
  /\ clipsGenerated (withListeners r f w) = clipsGenerated w.
Proof.
  unfold withListeners.
  destruct (listeners_frame r
              (skipn (length (AudioBuffer.emitted (audioBuffer w)))
                     (AudioBuffer.emitted (f (audioBuffer w))))
              (set_audioBuffer (f (audioBuffer w)) w)) as [H1 [H2 [H3 H4]]].
  repeat split; assumption.
Qed.

(** What one resumption does to the flag and to the rest. *)
Lemma generateClipResume_flag (cfg : Timing) (r : Replies) (ph : Phase) (w : Mil4dy) :
  inFlight (fst (generateClipResume cfg r ph w)) = inFlight w
  /\ match snd (generateClipResume cfg r ph w) with
     | None => isGenerating (fst (generateClipResume cfg r ph w)) = false
     | Some _ => isGenerating (fst (generateClipResume cfg r ph w)) = isGenerating w
     end.
Proof.
  destruct ph; cbn.
  - destruct (vision r); cbn; auto.
  - destruct (compose r); cbn; auto.
  - destruct (synth r); cbn; auto.
    destruct (negb (AudioBuffer.isInitialized (audioBuffer w))); cbn; auto.
  - destruct (AudioBuffer.blobDecodes clip); cbn; auto.
Qed.

(** The history after a composed text has been recorded does not
    depend on whether the client existed before. *)
Lemma addToHistory_initialize (text : string) (p : Poetry.PoetryModule) :
  Poetry.previousLines (Poetry.addToHistory text (Poetry.initialize p))
  = Poetry.previousLines (Poetry.addToHistory text p).
Proof.
  unfold Poetry.addToHistory, Poetry.initialize, Poetry.set_previousLines.
  cbn [Poetry.previousLines Poetry.maxPreviousLines].
  match goal with
  | |- context [if ?b then _ else _] => destruct b
  end; reflexivity.
Qed.

(** A run that is admitted and aborts at a stage. *)
Lemma generateClip_aborted (cfg : Timing) (r : Replies) (e : StageError) (w : Mil4dy) :
  isGenerating w = false -> stageError r = Some e ->
  audioBuffer (generateClip cfg r w) = audioBuffer w
  /\ errors (generateClip cfg r w) = S (errors w)
  /\ clipsGenerated (generateClip cfg r w) = clipsGenerated w
  /\ isGenerating (generateClip cfg r w) = false
  /\ isRunning (generateClip cfg r w) = isRunning w
  /\ inFlight (generateClip cfg r w) = inFlight w
  /\ (e <> SynthesizeError ->
      Poetry.previousLines (poetry (generateClip cfg r w))
      = Poetry.previousLines (poetry w))
  /\ (e = SynthesizeError ->
      forall content, compose r = Some content ->
        Poetry.previousLines (poetry (generateClip cfg r w))
        = Poetry.previousLines
            (Poetry.addToHistory (JsString.trim content) (poetry w))).
Proof.
  intros Hg He. unfold stageError in He.
  unfold generateClip, generateClipEnter. rewrite Hg.
  destruct (capture r) as [frame|].
  2:{ injection He as <-. cbn. repeat split; try reflexivity. discriminate. }
  cbn [resumeAll generateClipResume].
  destruct (vision r) as [scene|].
  2:{ injection He as <-. cbn. repeat split; try reflexivity. discriminate. }
  cbn [resumeAll generateClipResume].
  destruct (compose r) as [content|].
  2:{ injection He as <-. cbn. repeat split; try reflexivity. discriminate. }
  cbn [resumeAll generateClipResume Poetry.generateReply Poetry.poemText].
  destruct (synth r) as [a|]; [discriminate|].
  injection He as <-. cbn [fst].
  repeat split; try reflexivity.
  - intros H. now contradiction H.
  - intros _ content' Hc. injection Hc as <-.
    unfold catchFinally, Poetry.generateCall. simpl.
    apply addToHistory_initialize.
Qed.


(** No resumption of a run reads or writes [isRunning]. *)
Lemma generateClipResume_isRunning (cfg : Timing) (r : Replies) (ph : Phase)
  (b : bool) (w : Mil4dy) :
  generateClipResume cfg r ph (set_isRunning b w)
  = (set_isRunning b (fst (generateClipResume cfg r ph w)),
     snd (generateClipResume cfg r ph w)).
Proof.
  destruct ph; cbn [generateClipResume].
  - destruct (vision r); reflexivity.
  - destruct (compose r); reflexivity.
  - destruct (synth r); [|reflexivity].
    cbn [audioBuffer set_isRunning].
    destruct (negb (AudioBuffer.isInitialized (audioBuffer w))); reflexivity.
  - destruct (AudioBuffer.blobDecodes clip); reflexivity.
Qed.

(** A suspended run whose remaining stages succeed goes on to its end
    and enqueues its clip. *)
Lemma resumeAll_succeeds (cfg : Timing) (r : Replies) (ph : Phase)
  (clip : AudioBuffer.AudioClip) (w : Mil4dy) :
  (guardAhead ph = true -> AudioBuffer.isInitialized (audioBuffer w) = true) ->
  clipInHand r ph = Some clip ->
  AudioBuffer.blobDecodes clip = true ->
  snd (resumeAll cfg 4 r (w, Some ph)) = None
  /\ audioBuffer (fst (resumeAll cfg 4 r (w, Some ph)))
     = AudioBuffer.enqueueDecoded cfg clip (audioBuffer w)
  /\ clipsGenerated (fst (resumeAll cfg 4 r (w, Some ph))) = S (clipsGenerated w)
  /\ errors (fst (resumeAll cfg 4 r (w, Some ph))) = errors w
  /\ isRunning (fst (resumeAll cfg 4 r (w, Some ph))) = isRunning w
  /\ isGenerating (fst (resumeAll cfg 4 r (w, Some ph))) = false.
Proof.
  intros Hi Hc Hd.
  assert (Hdecode : forall c v,
             AudioBuffer.blobDecodes c = true ->
             forall n,
               resumeAll cfg (S n) r (v, Some (AwaitDecode c))
               = (set_isGenerating false
                    (set_clipsGenerated (S (clipsGenerated v))
                       (set_audioBuffer
                          (AudioBuffer.enqueueDecoded cfg c (audioBuffer v)) v)),
                  None)).
  { intros c v Hcd n. cbn [resumeAll generateClipResume]. rewrite Hcd.
    destruct n; reflexivity. }
  assert (Hspeech : forall text v,
             AudioBuffer.isInitialized (audioBuffer v) = true ->
             clipInHand r (AwaitSpeech text) = Some clip ->
             forall n,
               resumeAll cfg (S (S n)) r (v, Some (AwaitSpeech text))
               = (set_isGenerating false
                    (set_clipsGenerated (S (clipsGenerated v))
                       (set_audioBuffer
                          (AudioBuffer.enqueueDecoded cfg clip (audioBuffer v)) v)),
                  None)).
  { intros text v Hv Hclip n. cbn [clipInHand] in Hclip.
    cbn [resumeAll generateClipResume].
    destruct (synth r) as [a|]; [|discriminate]. injection Hclip as Hclip.
    rewrite Hv. cbn [negb]. rewrite Hclip. now apply Hdecode. }
  assert (Hpoetry : forall v,
             AudioBuffer.isInitialized (audioBuffer v) = true ->
             clipInHand r AwaitPoetry = Some clip ->
             forall n,
               audioBuffer (fst (resumeAll cfg (S (S (S n))) r (v, Some AwaitPoetry)))
               = AudioBuffer.enqueueDecoded cfg clip (audioBuffer v)
               /\ snd (resumeAll cfg (S (S (S n))) r (v, Some AwaitPoetry)) = None
               /\ clipsGenerated
                    (fst (resumeAll cfg (S (S (S n))) r (v, Some AwaitPoetry)))
                  = S (clipsGenerated v)
               /\ errors (fst (resumeAll cfg (S (S (S n))) r (v, Some AwaitPoetry)))
                  = errors v
               /\ isRunning (fst (resumeAll cfg (S (S (S n))) r (v, Some AwaitPoetry)))
                  = isRunning v
               /\ isGenerating
                    (fst (resumeAll cfg (S (S (S n))) r (v, Some AwaitPoetry)))
                  = false).
  { intros v Hv Hclip n. cbn [clipInHand] in Hclip.
    change (resumeAll cfg (S (S (S n))) r (v, Some AwaitPoetry))
      with (resumeAll cfg (S (S n)) r (generateClipResume cfg r AwaitPoetry v)).
    cbn [generateClipResume].
    destruct (compose r) as [content|]; [|discriminate].
    cbn [Poetry.generateReply Poetry.poemText].
    rewrite (Hspeech (JsString.trim content)); [| exact Hv | exact Hclip].
    repeat split; reflexivity. }
  destruct ph.
  - cbn [clipInHand] in Hc.
    change (resumeAll cfg 4 r (w, Some AwaitVision))
      with (resumeAll cfg 3 r (generateClipResume cfg r AwaitVision w)).
    cbn [generateClipResume].
    destruct (vision r) as [scene|]; [|discriminate].
    destruct (Hpoetry (set_poetry (Poetry.generateCall (poetry w)) w)
                (Hi eq_refl) Hc 0) as [A [B [C [D [E F]]]]].
    repeat split; assumption.
  - destruct (Hpoetry w (Hi eq_refl) Hc 1) as [A [B [C [D [E F]]]]].
    repeat split; assumption.
  - rewrite (Hspeech text w (Hi eq_refl) Hc 2). repeat split; reflexivity.
  - cbn [clipInHand] in Hc. injection Hc as <-.
    rewrite (Hdecode clip0 w Hd 3). repeat split; reflexivity.
Qed.


End MainFacts.

(** ** One pipeline run at a time *)

Module SingleFlight.

Import Config Main SessionNotions MainFacts.

Lemma stop_singleFlight (r : Replies) (w : Mil4dy) :
  singleFlight w -> singleFlight (stop r w).
Proof.
  intros H. unfold stop. apply withListeners_singleFlight.
  unfold stopGenerationLoop.
  destruct (generationLoop (set_isRunning false w));
    now apply (singleFlight_same w).
Qed.

Lemma settle_singleFlight (cfg : Timing) (i : nat) (r : Replies) (w : Mil4dy) :
  singleFlight w -> singleFlight (step cfg (PromiseSettles i r) w).
Proof.
  intros H. cbn [step].
  destruct (nth_error (inFlight w) i) as [ph|] eqn:Hnth; [|exact H].
  destruct H as [[_ Hin]|[Hg [p Hin]]].
  - rewrite Hin in Hnth. destruct i; discriminate.
  - rewrite Hin in Hnth.
    destruct i as [|j]; [|destruct j; discriminate].
    injection Hnth as <-.
    destruct (generateClipResume_flag cfg r p w) as [Hfl Hflag].
    destruct (generateClipResume cfg r p w) as [w1 next]. cbn [fst snd] in *.
    rewrite Hfl, Hin. unfold set_inFlight.
    destruct next as [ph'|]; simpl in Hflag; unfold singleFlight; simpl.
    + right. split; [congruence | eexists; reflexivity].
    + left. split; [exact Hflag | reflexivity].
Qed.

Lemma step_singleFlight (cfg : Timing) (a : Action) (w : Mil4dy) :
  singleFlight w -> singleFlight (step cfg a w).
Proof.
  intros H. destruct a as [r|r|i r|r|init r|r|i r|r|].
  - now apply spawn_singleFlight.
  - cbn [step]. destruct (liveIntervals w); [exact H|].
    unfold intervalTick.
    destruct (_ <? _); [|exact H].
    destruct (negb (isGenerating w)); [|exact H].
    now apply spawn_singleFlight.
  - now apply settle_singleFlight.
  - now apply stop_singleFlight.
  - cbn [step]. unfold startEnter.
    destruct (AudioBuffer.initialize init (audioBuffer (set_isRunning true w)))
      as [ab [|e]]; cbn [fst].
    + now apply (singleFlight_same w).
    + apply stop_singleFlight. now apply (singleFlight_same w).
  - cbn [step]. unfold startPlay, startGenerationLoop.
    eapply singleFlight_same;
      [| | eapply withListeners_singleFlight; exact H]; reflexivity.
  - now apply withListeners_singleFlight.
  - now apply withListeners_singleFlight.
  - now apply (singleFlight_same w).
Qed.

Lemma exec_singleFlight (cfg : Timing) (acts : list Action) :
  forall w, singleFlight w -> singleFlight (exec cfg acts w).
Proof.
  induction acts as [|a rest IH]; intros w H; cbn; [exact H|].
  apply IH. now apply step_singleFlight.
Qed.

(** C2.  Whatever the environment does from the moment the application
    is constructed (direct calls of [generateClip], ticks of the
    interval timer, low-buffer signals raised by the audio buffer's
    timeouts and [ended] events, calls of [start] and [stop], promises
    settling), at most one activation of [generateClip] exists at any
    moment, and none while the flag is down.  A call while the flag is
    up returns at once: the state is unchanged and no activation is
    created, whether the call is direct, comes from the timer, or comes
    from the low-buffer listener. *)
Theorem generateClip_is_single_flight (cfg : Timing) :
  (forall acts,
      length (inFlight (exec cfg acts new)) <= 1
      /\ (isGenerating (exec cfg acts new) = false -> inFlight (exec cfg acts new) = []))
  /\ (forall r w,
         isGenerating w = true ->
         generateClipEnter r w = (w, None)
         /\ generateClip cfg r w = w
         /\ step cfg (CallGenerateClip r) w = w
         /\ step cfg (IntervalTick r) w = w
         /\ listener r w AudioBuffer.BufferLow = w).
Proof.
  split.
  - intros acts.
    assert (H0 : singleFlight new) by (left; split; reflexivity).
    destruct (exec_singleFlight cfg acts new H0) as [[Hg Hin]|[Hg [p Hin]]].
    + rewrite Hin. split; [cbn; lia | reflexivity].
    + rewrite Hin. split; [cbn; lia | congruence].
  - intros r w Hg.
    pose proof (generateClipEnter_busy r w Hg) as He.
    repeat split.
    + exact He.
    + unfold generateClip. rewrite He. reflexivity.
    + cbn [step]. unfold spawnGenerateClip. now rewrite He.
    + cbn [step]. destruct (liveIntervals w); [reflexivity|].
      unfold intervalTick. rewrite Hg. cbn [negb].
      destruct (_ <? _); reflexivity.
    + cbn. rewrite Hg. cbn. now rewrite andb_false_r.
Qed.

Lemma generateClip_is_single_flight_witness :
  inFlight busy = [AwaitVision]
  /\ step timing (CallGenerateClip allGood) busy = busy
  /\ step timing (IntervalTick allGood) busy = busy
  /\ listener allGood busy AudioBuffer.BufferLow = busy.
Proof.
  destruct (generateClip_is_single_flight timing) as [_ H].
  destruct (H allGood busy eq_refl) as [_ [_ [H1 [H2 H3]]]].
  repeat split; assumption.
Defined.

End SingleFlight.

(** ** A run that aborts *)

Module AbortedRun.

Import Config Main SessionNotions MainFacts.

(** C3 (amended).  A run that is admitted and aborts at any of the four
    stages leaves the audio buffer, and so the queue, exactly as it was,
    adds one to the error count, enqueues nothing, and hands control
    back with the flag down, so the next trigger is admitted.  When it
    aborts at capture, description or composition the history of
    previous lines is as before.  When it aborts at synthesis the
    history already holds the lines composed in this run: they were
    recorded inside [poetry.generate], before the speech request. *)
Theorem aborted_run_effects (cfg : Timing) (r : Replies) (e : StageError) (w : Mil4dy) :
  isGenerating w = false -> stageError r = Some e ->
  audioBuffer (generateClip cfg r w) = audioBuffer w
  /\ errors (generateClip cfg r w) = S (errors w)
  /\ clipsGenerated (generateClip cfg r w) = clipsGenerated w
  /\ isGenerating (generateClip cfg r w) = false
  /\ (e <> SynthesizeError ->
      Poetry.previousLines (poetry (generateClip cfg r w))
      = Poetry.previousLines (poetry w))
  /\ (e = SynthesizeError ->
      forall content, compose r = Some content ->
        Poetry.previousLines (poetry (generateClip cfg r w))
        = Poetry.previousLines
            (Poetry.addToHistory (JsString.trim content) (poetry w))).
Proof.
  intros Hg He.
  destruct (generateClip_aborted cfg r e w Hg He)
    as [H1 [H2 [H3 [H4 [_ [_ [H5 H6]]]]]]].
  repeat split; assumption.
Qed.

Lemma aborted_run_effects_witness :
  audioBuffer (generateClip timing noSpeech primed) = audioBuffer primed
  /\ errors (generateClip timing noSpeech primed) = 1
  /\ Poetry.previousLines (poetry (generateClip timing noSpeech primed))
     = ["Light rests on the desk"%string].
Proof.
  destruct (aborted_run_effects timing noSpeech SynthesizeError primed
              eq_refl eq_refl) as [H1 [H2 [_ [_ [_ H6]]]]].
  split; [exact H1|]. split; [exact H2|].
  rewrite (H6 eq_refl "Light rests on the desk"%string eq_refl). reflexivity.
Defined.

(** C3, as stated, fails for a synthesis error: the first run of a
    session composes one line, speech synthesis fails, and the history,
    empty before the run, holds that line after it. *)
Lemma synthesis_abort_counterexample :
  ~ abortLeavesContext timing noSpeech primed.
Proof.
  unfold abortLeavesContext. intros H.
  destruct (H eq_refl) as [Hlines _]; [discriminate|].
  vm_compute in Hlines. discriminate Hlines.
Qed.

End AbortedRun.

(** ** A run that finishes after [stop] *)

Module StoppedSession.

Import Config Main SessionNotions MainFacts.

Lemma pause_emits (st : AudioBuffer.AudioBufferManager) :
  skipn (length (AudioBuffer.emitted st)) (AudioBuffer.emitted (AudioBuffer.pause st)) = []
  \/ exists s,
       skipn (length (AudioBuffer.emitted st)) (AudioBuffer.emitted (AudioBuffer.pause st))
       = [AudioBuffer.BufferUpdate s].
Proof.
  unfold AudioBuffer.pause.
  destruct (negb (AudioBuffer.isPlaying st)).
  - left. apply skipn_all.
  - right. eexists.
    destruct (AudioBuffer.currentSource (AudioBuffer.set_isPaused true st));
      cbn; rewrite skipn_app, skipn_all, Nat.sub_diag; reflexivity.
Qed.

Lemma stop_keeps_runs (r : Replies) (w : Mil4dy) :
  inFlight (stop r w) = inFlight w /\ isGenerating (stop r w) = isGenerating w.
Proof.
  unfold stop, withListeners.
  set (w2 := stopGenerationLoop (set_isRunning false w)).
  assert (H2 : inFlight w2 = inFlight w /\ isGenerating w2 = isGenerating w).
  { subst w2. unfold stopGenerationLoop.
    destruct (generationLoop (set_isRunning false w)); split; reflexivity. }
  destruct (pause_emits (audioBuffer w2)) as [->|[s ->]]; cbn; exact H2.
Qed.

Lemma pause_isInitialized (st : AudioBuffer.AudioBufferManager) :
  AudioBuffer.isInitialized (AudioBuffer.pause st) = AudioBuffer.isInitialized st.
Proof.
  unfold AudioBuffer.pause.
  destruct (negb (AudioBuffer.isPlaying st)); [reflexivity|].
  destruct (AudioBuffer.currentSource (AudioBuffer.set_isPaused true st)); reflexivity.
Qed.

Lemma stop_isRunning (r : Replies) (w : Mil4dy) :
  isRunning (stop r w) = false
  /\ AudioBuffer.isInitialized (audioBuffer (stop r w))
     = AudioBuffer.isInitialized (audioBuffer w).
Proof.
  unfold stop.
  destruct (withListeners_frame r AudioBuffer.pause
              (stopGenerationLoop (set_isRunning false w))) as [Hab [Hr _]].
  rewrite Hr, Hab, pause_isInitialized. unfold stopGenerationLoop.
  destruct (generationLoop (set_isRunning false w)); split; reflexivity.
Qed.

(** C6 (amended).  [stop] sets the session to not running and leaves a
    suspended run suspended.  Wherever that run waits (for the scene
    description, the verses, the speech or the decoder), when the stages
    still ahead of it succeed it goes on to its end in the stopped
    session, and its clip is enqueued and counted exactly as in a running
    one; no error is counted and the session stays stopped.  No
    resumption of [generateClip] reads or writes [isRunning]: the state
    it produces from a stopped session is the one it produces from a
    running session, but for that flag. *)
Theorem finished_run_is_enqueued_regardless (cfg : Timing) (r0 r : Replies)
  (ph : Phase) (clip : AudioBuffer.AudioClip) (w : Mil4dy) :
  (guardAhead ph = true -> AudioBuffer.isInitialized (audioBuffer w) = true) ->
  clipInHand r ph = Some clip ->
  AudioBuffer.blobDecodes clip = true ->
  let stopped := stop r0 w in
  let finished := resumeAll cfg 4 r (stopped, Some ph) in
  isRunning stopped = false
  /\ inFlight stopped = inFlight w
  /\ snd finished = None
  /\ audioBuffer (fst finished)
     = AudioBuffer.enqueueDecoded cfg clip (audioBuffer stopped)
  /\ clipsGenerated (fst finished) = S (clipsGenerated stopped)
  /\ errors (fst finished) = errors stopped
  /\ isRunning (fst finished) = false
  /\ (forall b r' ph' v,
         generateClipResume cfg r' ph' (set_isRunning b v)
         = (set_isRunning b (fst (generateClipResume cfg r' ph' v)),
            snd (generateClipResume cfg r' ph' v)))
  /\ (forall b i r' v,
         step cfg (PromiseSettles i r') (set_isRunning b v)
         = set_isRunning b (step cfg (PromiseSettles i r') v)).
Proof.
  intros Hi Hc Hd stopped finished.
  destruct (stop_isRunning r0 w) as [Hrun Hinit].
  assert (Hi' : guardAhead ph = true ->
                AudioBuffer.isInitialized (audioBuffer stopped) = true).
  { intros Hg. unfold stopped. rewrite Hinit. exact (Hi Hg). }
  destruct (resumeAll_succeeds cfg r ph clip stopped Hi' Hc Hd)
    as [A [B [C [D [E _]]]]].
  split; [exact Hrun|]. split; [apply stop_keeps_runs|].
  split; [exact A|]. split; [exact B|]. split; [exact C|]. split; [exact D|].
  split; [unfold finished; rewrite E; exact Hrun|].
  split; [intros; apply generateClipResume_isRunning|].
  intros b i r' v. cbn [step inFlight set_isRunning].
  destruct (nth_error (inFlight v) i) as [ph'|]; [|reflexivity].
  rewrite generateClipResume_isRunning.
  destruct (generateClipResume cfg r' ph' v) as [w1 next]. reflexivity.
Qed.

Lemma finished_run_is_enqueued_regardless_witness :
  inFlight duringSynthesis = [AwaitSpeech "Light rests on the desk"%string]
  /\ isRunning (stop allGood duringSynthesis) = false
  /\ inFlight (stop allGood duringSynthesis) = inFlight duringSynthesis
  /\ map AudioBuffer.text
         (AudioBuffer.queue
            (audioBuffer
               (fst (resumeAll timing 4 allGood
                       (stop allGood duringSynthesis,
                        Some (AwaitSpeech "Light rests on the desk"%string))))))
     = ["Light rests on the desk"%string]
  /\ isRunning
       (fst (resumeAll timing 4 allGood
               (stop allGood duringSynthesis,
                Some (AwaitSpeech "Light rests on the desk"%string)))) = false.
Proof.
  destruct (finished_run_is_enqueued_regardless timing allGood allGood
              (AwaitSpeech "Light rests on the desk"%string)
              (AudioBuffer.mkClip "Light rests on the desk"%string 4%float true false)
              duringSynthesis (fun _ => eq_refl) eq_refl eq_refl)
    as [Hrun [Hfl [_ [Hab [_ [_ [Hstill _]]]]]]].
  split; [reflexivity|]. split; [exact Hrun|]. split; [exact Hfl|].
  split; [rewrite Hab; reflexivity | exact Hstill].
Defined.

(** C6, as stated, fails: the session above is stopped with one run
    still suspended; when the decoder answers, the clip of that run
    enters the queue of the stopped session. *)
Lemma enqueue_after_stop_counterexample :
  ~ discardsWhenStopped timing stoppedMidRun.
Proof.
  unfold discardsWhenStopped. intros H.
  specialize (H eq_refl 0 allGood).
  vm_compute in H. discriminate H.
Qed.

End StoppedSession.

(** ** Priming at [start] *)

Module Priming.

Import Config Main SessionNotions MainFacts.

Lemma startPriming_isRunning (cfg : Timing) (r1 r2 : Replies) (w : Mil4dy) :
  isRunning (startPriming cfg r1 r2 w) = isRunning w
  /\ AudioBuffer.isInitialized (audioBuffer (startPriming cfg r1 r2 w))
     = AudioBuffer.isInitialized (audioBuffer w).
Proof.
  assert (G : forall r v,
             isRunning (generateClip cfg r v) = isRunning v
             /\ AudioBuffer.isInitialized (audioBuffer (generateClip cfg r v))
                = AudioBuffer.isInitialized (audioBuffer v)).
  { intros r v. unfold generateClip, generateClipEnter.
    destruct (isGenerating v); [split; reflexivity|].
    destruct (capture r); [|split; reflexivity].
    cbn [resumeAll generateClipResume].
    destruct (vision r); [|split; reflexivity].
    cbn [resumeAll generateClipResume].
    destruct (compose r); [|split; reflexivity].
    cbn [resumeAll generateClipResume Poetry.generateReply Poetry.poemText].
    destruct (synth r); [|split; reflexivity].
    destruct (negb (AudioBuffer.isInitialized _)); [split; reflexivity|].
    cbn [resumeAll generateClipResume AudioBuffer.blobDecodes].
    destruct (AudioBuffer.blobDecodes a); split; reflexivity. }
  unfold startPriming.
  destruct (G r2 (generateClip cfg r1 w)) as [A1 A2].
  destruct (G r1 w) as [B1 B2]. split; congruence.
Qed.

(** [start] reaches playback when the audio buffer initializes. *)
Lemma start_proceeds (cfg : Timing) (r1 r2 r3 : Replies) (w : Mil4dy) :
  isRunning (start cfg AudioBuffer.InitOk r1 r2 r3 w) = true
  /\ AudioBuffer.isPlaying (audioBuffer (start cfg AudioBuffer.InitOk r1 r2 r3 w)) = true
  /\ generationLoop (start cfg AudioBuffer.InitOk r1 r2 r3 w) = true.
Proof.
  unfold start, startEnter.
  assert (Hinit : exists ab,
             AudioBuffer.initialize AudioBuffer.InitOk (audioBuffer (set_isRunning true w))
             = (ab, Returned) /\ AudioBuffer.isInitialized ab = true).
  { unfold AudioBuffer.initialize.
    destruct (AudioBuffer.isInitialized (audioBuffer (set_isRunning true w))) eqn:Hi;
      eexists; split; try reflexivity. exact Hi. }
  destruct Hinit as [ab [-> Hi]].
  set (w1 := set_audioBuffer ab (set_isRunning true w)).
  destruct (startPriming_isRunning cfg r1 r2 w1) as [Hrun Hini].
  unfold startPlay, startGenerationLoop.
  destruct (withListeners_frame r3
              (fun b => fst (AudioBuffer.play cfg AudioBuffer.InitOk b))
              (startPriming cfg r1 r2 w1)) as [Hab [Hr _]].
  repeat split.
  - simpl. rewrite Hr, Hrun. reflexivity.
  - simpl. rewrite Hab. apply AudioBufferFacts.play_isPlaying.
    rewrite Hini. exact Hi.
Qed.







End Priming.

(** ** The history across sessions *)

Module HistoryAcrossSessions.

Import Config Main SessionNotions MainFacts.

Lemma stop_poetry (r : Replies) (w : Mil4dy) : poetry (stop r w) = poetry w.
Proof.
  unfold stop.
  destruct (withListeners_frame r AudioBuffer.pause
              (stopGenerationLoop (set_isRunning false w))) as [_ [_ [H _]]].
  rewrite H. unfold stopGenerationLoop.
  destruct (generationLoop (set_isRunning false w)); reflexivity.
Qed.

(** C8 (amended).  [start] does not touch the history: when its first
    run begins, the previous lines are those the application held
    before the call, and the lines of an earlier session are carried
    into the next one.  The history is emptied by [clearHistory], which
    [start] does not call. *)
Theorem start_keeps_history (init : AudioBuffer.InitReply) (r : Replies) (w : Mil4dy) :
  poetry (fst (startEnter init r w)) = poetry w
  /\ Poetry.previousLines (Poetry.clearHistory (poetry w)) = []
  /\ Poetry.previousLines (poetry (step timing ClearHistory w)) = [].
Proof.
  split; [|split; reflexivity].
  unfold startEnter.
  destruct (AudioBuffer.initialize init (audioBuffer (set_isRunning true w)))
    as [ab [|e]]; cbn [fst].
  - reflexivity.
  - now rewrite stop_poetry.
Qed.

(** C8, as stated, fails: after one session in which two clips were
    produced, a second [start] reaches its first run with the lines of
    the first session still in the history. *)
Lemma restart_history_counterexample :
  ~ historyResetAtStart AudioBuffer.InitOk allGood afterOneSession.
Proof.
  unfold historyResetAtStart. intros H.
  vm_compute in H. discriminate H.
Qed.

End HistoryAcrossSessions.

(** * Further properties of the code *)

(** ** Clips are played in the order they were enqueued *)

Module PlaybackOrder.

Import Config AudioBuffer AudioBufferFacts Samples BufferNotions PlaybackNotions.

Lemma started_app (tr1 tr2 : list Event) :
  started (tr1 ++ tr2) = started tr1 ++ started tr2.
Proof.
  induction tr1 as [|e tr1 IH]; [reflexivity|].
  destruct e; cbn; rewrite IH; reflexivity.
Qed.

Lemma subsequence_refl {A : Type} (l : list A) : subsequence l l.
Proof. induction l; constructor; assumption. Qed.

Lemma subsequence_nil_l {A : Type} (l : list A) : subsequence [] l.
Proof. induction l; constructor; assumption. Qed.

Lemma subsequence_app {A : Type} (l1 l2 l3 l4 : list A) :
  subsequence l1 l2 -> subsequence l3 l4 -> subsequence (l1 ++ l3) (l2 ++ l4).
Proof.
  intros H12 H34. induction H12; cbn.
  - exact H34.
  - now constructor.
  - now constructor.
Qed.

Lemma subsequence_trans {A : Type} (l1 l2 l3 : list A) :
  subsequence l1 l2 -> subsequence l2 l3 -> subsequence l1 l3.
Proof.
  intros H12 H23. revert l1 H12.
  induction H23 as [|x l2 l3 H23 IH|x l2 l3 H23 IH]; intros l1 H12.
  - exact H12.
  - constructor. now apply IH.
  - inversion H12; subst.
    + constructor. now apply IH.
    + apply subsequence_keep. now apply IH.
Qed.

Lemma subsequence_skipn {A : Type} (k : nat) (l : list A) :
  subsequence (skipn k l) l.
Proof.
  revert k. induction l as [|x l IH]; intros k.
  - rewrite skipn_nil. constructor.
  - destruct k; cbn.
    + apply subsequence_refl.
    + constructor. apply IH.
Qed.

Lemma playNextFrom_lineup (cfg : Timing) (q : list AudioClip) :
  forall st, queue st = q -> lineup (playNextFrom cfg q st) = lineup st.
Proof.
  induction q as [|clip rest IH]; intros st Hq; cbn [playNextFrom];
    destruct (negb (isPlaying st) || isPaused st); try reflexivity.
  - unfold lineup. cbn. rewrite started_app. cbn. now rewrite app_nil_r.
  - assert (Hlow : forall st1,
               (st1 = emit BufferLow st \/ st1 = st) ->
               started (emitted st1) = started (emitted st)).
    { intros st1 [->| ->]; [|reflexivity].
      cbn. rewrite started_app. cbn. now rewrite app_nil_r. }
    set (st1 := if length (clip :: rest) <=? minBufferClips cfg
                then emit BufferLow st else st).
    assert (H1 : started (emitted st1) = started (emitted st)).
    { apply Hlow. subst st1. destruct (_ <=? _); auto. }
    clearbody st1.
    destruct (startThrows clip).
    + rewrite IH by reflexivity.
      unfold lineup. cbn. rewrite !started_app, H1, Hq. cbn.
      rewrite <- !app_assoc. reflexivity.
    + unfold lineup. cbn. rewrite !started_app, H1, Hq. cbn.
      rewrite <- !app_assoc. reflexivity.
Qed.

Lemma playNext_lineup (cfg : Timing) (st : AudioBufferManager) :
  lineup (playNext cfg st) = lineup st.
Proof. now apply playNextFrom_lineup. Qed.

Lemma lineup_same (st st' : AudioBufferManager) :
  queue st' = queue st ->
  (emitted st' = emitted st
   \/ (exists s, emitted st' = emitted st ++ [BufferUpdate s])
   \/ (exists c, emitted st' = emitted st ++ [ClipEnd c])) ->
  lineup st' = lineup st.
Proof.
  intros Hq He. unfold lineup. rewrite Hq.
  destruct He as [->|[[s ->]|[c ->]]]; [reflexivity| |];
    rewrite started_app; cbn; now rewrite app_nil_r.
Qed.

Lemma play_lineup (cfg : Timing) (r : InitReply) (st : AudioBufferManager) :
  lineup (fst (play cfg r st)) = lineup st.
Proof.
  unfold play.
  assert (Hinit : lineup (fst (initialize r st)) = lineup st).
  { unfold initialize. destruct (isInitialized st); [reflexivity|].
    destruct r; reflexivity. }
  destruct (isInitialized st) eqn:Hi.
  - destruct (isPlaying st && negb (isPaused st)); [reflexivity|].
    destruct r; cbn [fst]; try reflexivity; now rewrite playNext_lineup.
  - destruct (initialize r st) as [st1 [|e]]; cbn [fst] in *; [|exact Hinit].
    destruct (isPlaying st1 && negb (isPaused st1)); [exact Hinit|].
    destruct r; cbn [fst]; rewrite playNext_lineup; exact Hinit.
Qed.

Lemma pause_lineup (st : AudioBufferManager) : lineup (pause st) = lineup st.
Proof.
  unfold pause. destruct (negb (isPlaying st)); [reflexivity|].
  apply lineup_same.
  - destruct (currentSource (set_isPaused true st)); reflexivity.
  - right. left. eexists.
    destruct (currentSource (set_isPaused true st)); reflexivity.
Qed.

Lemma stop_lineup (st : AudioBufferManager) : lineup (stop st) = lineup st.
Proof.
  unfold stop. apply lineup_same.
  - destruct (currentSource (set_isPaused false (set_isPlaying false st)));
      reflexivity.
  - right. left. eexists.
    destruct (currentSource (set_isPaused false (set_isPlaying false st)));
      reflexivity.
Qed.

Lemma resume_lineup (cfg : Timing) (st : AudioBufferManager) :
  lineup (resume cfg st) = lineup st.
Proof.
  unfold resume. destruct (negb (isPaused st)); [reflexivity|].
  now rewrite playNext_lineup.
Qed.

Lemma onended_lineup (cfg : Timing) (c : AudioClip) (st : AudioBufferManager) :
  lineup (onended cfg c st) = lineup st.
Proof.
  unfold onended. cbv zeta.
  assert (H : lineup (emit (ClipEnd c)
                        (set_currentlyPlaying None (set_currentSource None st)))
              = lineup st).
  { apply lineup_same; [reflexivity|]. right. right. eexists. reflexivity. }
  match goal with
  | |- context [if ?b then _ else _] => destruct b
  end; [rewrite playNext_lineup|]; exact H.
Qed.

Lemma sourceEnded_lineup (cfg : Timing) (i : nat) (st : AudioBufferManager) :
  lineup (sourceEnded cfg i st) = lineup st.
Proof.
  unfold sourceEnded. destruct (nth_error (pendingEnded st) i); [|reflexivity].
  now rewrite onended_lineup.
Qed.

Lemma timeoutFires_lineup (cfg : Timing) (st : AudioBufferManager) :
  lineup (timeoutFires cfg st) = lineup st.
Proof.
  unfold timeoutFires. destruct (pendingTimeouts st); [reflexivity|].
  now rewrite playNext_lineup.
Qed.

Lemma consume_lineup (cfg : Timing) (x : ConsumerInput) (st : AudioBufferManager)
  (l : list AudioClip) :
  subsequence (lineup st) l ->
  subsequence (lineup (consume cfg st x)) (l ++ offered [x]).
Proof.
  intros H.
  destruct x as [r|clip| |i| | | |]; cbn [consume offered];
    rewrite ?app_nil_r;
    rewrite ?play_lineup, ?sourceEnded_lineup, ?timeoutFires_lineup,
            ?pause_lineup, ?resume_lineup, ?stop_lineup; try exact H.
  - (* addToQueue *)
    destruct (addToQueue_cases cfg clip st) as [E|[e E]]; rewrite E; cbn [fst].
    + unfold lineup, enqueueDecoded. cbn.
      rewrite started_app. cbn. rewrite app_nil_r.
      rewrite QueueBound.trim_keeps_newest.
      eapply subsequence_trans.
      * apply subsequence_app; [apply subsequence_refl|apply subsequence_skipn].
      * rewrite app_assoc. apply subsequence_app; [exact H|apply subsequence_refl].
    + replace (lineup st) with (lineup st ++ []) by apply app_nil_r.
      apply subsequence_app; [exact H|]. constructor. constructor.
  - (* clearQueue *)
    unfold lineup, clearQueue. cbn. rewrite started_app. cbn.
    rewrite !app_nil_r.
    eapply subsequence_trans; [|exact H].
    unfold lineup.
    replace (started (emitted st)) with (started (emitted st) ++ []) at 1
      by apply app_nil_r.
    apply subsequence_app; [apply subsequence_refl|apply subsequence_nil_l].
Qed.

Lemma offered_app (xs ys : list ConsumerInput) :
  offered (xs ++ ys) = offered xs ++ offered ys.
Proof.
  induction xs as [|x xs IH]; [reflexivity|].
  destruct x; cbn; rewrite IH; reflexivity.
Qed.

Lemma consumeAll_lineup (cfg : Timing) (inputs : list ConsumerInput) :
  forall st l,
    subsequence (lineup st) l ->
    subsequence (lineup (consumeAll cfg inputs st)) (l ++ offered inputs).
Proof.
  induction inputs as [|x rest IH]; intros st l H; cbn [consumeAll fold_left].
  - cbn. now rewrite app_nil_r.
  - change (x :: rest) with ([x] ++ rest).
    rewrite offered_app, app_assoc.
    apply (IH (consume cfg st x)). now apply consume_lineup.
Qed.

(** X1.  Whatever is done to a buffer fresh from the constructor, the
    clips whose start has been announced, followed by the clips still
    queued, are a subsequence of the clips that were handed to
    [addToQueue], in the order they were handed over: playback is first
    in, first out, no clip enters playback twice, and nothing is played
    that was not enqueued. *)
Theorem playback_follows_enqueue_order (cfg : Timing) (inputs : list ConsumerInput) :
  subsequence
    (started (emitted (consumeAll cfg inputs new))
       ++ queue (consumeAll cfg inputs new))
    (offered inputs).
Proof.
  apply (consumeAll_lineup cfg inputs new []). constructor.
Qed.

End PlaybackOrder.

(** ** Clips whose source does not start *)

Module FailedStarts.

Import Config AudioBuffer AudioBufferFacts Samples BufferNotions PlaybackNotions.

Lemma errorCount_app (tr1 tr2 : list Event) :
  errorCount (tr1 ++ tr2) = errorCount tr1 + errorCount tr2.
Proof.
  induction tr1 as [|e tr1 IH]; [reflexivity|].
  destruct e; cbn; rewrite IH; reflexivity.
Qed.

(** One round of [playNext] on a clip that does not start. *)
Lemma playNextFrom_failing (cfg : Timing) (clip : AudioClip) (rest : list AudioClip)
  (st : AudioBufferManager) :
  isPlaying st = true -> isPaused st = false -> startThrows clip = true ->
  exists st1,
    playNextFrom cfg (clip :: rest) st = playNextFrom cfg rest st1
    /\ isPlaying st1 = true /\ isPaused st1 = false
    /\ queue st1 = rest
    /\ currentlyPlaying st1 = Some clip /\ currentSource st1 = Some clip
    /\ pendingEnded st1 = pendingEnded st
    /\ pendingTimeouts st1 = pendingTimeouts st
    /\ started (emitted st1) = started (emitted st) ++ [clip]
    /\ errorCount (emitted st1) = S (errorCount (emitted st)).
Proof.
  intros Hp Hz Hs. cbn [playNextFrom]. rewrite Hp, Hz, Hs. cbn [negb orb].
  eexists. split; [reflexivity|].
  destruct (length (clip :: rest) <=? minBufferClips cfg); cbn;
    rewrite ?PlaybackOrder.started_app, ?errorCount_app; cbn;
    rewrite ?app_nil_r, ?Nat.add_0_r, ?Nat.add_1_r;
    repeat split; try assumption; try reflexivity.
Qed.

Lemma playNextFrom_skips_failing (cfg : Timing) (bad : list AudioClip) :
  forall (st : AudioBufferManager) (good : AudioClip) (rest : list AudioClip),
    isPlaying st = true -> isPaused st = false ->
    Forall (fun c => startThrows c = true) bad ->
    startThrows good = false ->
    let st' := playNextFrom cfg (bad ++ good :: rest) st in
    queue st' = rest
    /\ currentlyPlaying st' = Some good
    /\ pendingEnded st' = pendingEnded st ++ [good]
    /\ pendingTimeouts st' = pendingTimeouts st
    /\ started (emitted st') = started (emitted st) ++ bad ++ [good]
    /\ errorCount (emitted st') = errorCount (emitted st) + length bad.
Proof.
  induction bad as [|clip bad IH]; intros st good rest Hp Hz Hbad Hgood st'; subst st'.
  - cbn [app playNextFrom length]. rewrite Hp, Hz, Hgood. cbn [negb orb].
    destruct (_ <=? _); cbn;
      rewrite ?PlaybackOrder.started_app, ?errorCount_app; cbn;
      rewrite ?app_nil_r, ?Nat.add_0_r;
      repeat split; reflexivity.
  - inversion Hbad as [|c l Hclip Hrest]; subst.
    cbn [app].
    destruct (playNextFrom_failing cfg clip (bad ++ good :: rest) st Hp Hz Hclip)
      as [st1 [E [Hp1 [Hz1 [_ [_ [_ [He1 [Ht1 [Hs1 Hc1]]]]]]]]]].
    rewrite E.
    destruct (IH st1 good rest Hp1 Hz1 Hrest Hgood) as [A [B [C [D [F G]]]]].
    repeat split; try assumption.
    + now rewrite C, He1.
    + now rewrite D, Ht1.
    + rewrite F, Hs1, <- app_assoc. reflexivity.
    + rewrite G, Hc1. cbn [length]. lia.
Qed.

Lemma playNextFrom_all_failing (cfg : Timing) (bad : list AudioClip) :
  forall (st : AudioBufferManager),
    isPlaying st = true -> isPaused st = false ->
    Forall (fun c => startThrows c = true) bad ->
    queue st = bad ->
    let st' := playNextFrom cfg bad st in
    queue st' = []
    /\ currentlyPlaying st' = fold_left (fun _ c => Some c) bad (currentlyPlaying st)
    /\ currentSource st' = fold_left (fun _ c => Some c) bad (currentSource st)
    /\ isPlaying st' = true /\ isPaused st' = false
    /\ pendingEnded st' = pendingEnded st
    /\ pendingTimeouts st' = S (pendingTimeouts st)
    /\ started (emitted st') = started (emitted st) ++ bad
    /\ errorCount (emitted st') = errorCount (emitted st) + length bad.
Proof.
  induction bad as [|clip bad IH]; intros st Hp Hz Hbad Hq st'; subst st'.
  - cbn [playNextFrom]. rewrite Hp, Hz. cbn.
    rewrite PlaybackOrder.started_app, errorCount_app. cbn.
    rewrite app_nil_r, Nat.add_0_r. repeat split; assumption || reflexivity.
  - inversion Hbad as [|c l Hclip Hrest]; subst.
    destruct (playNextFrom_failing cfg clip bad st Hp Hz Hclip)
      as [st1 [E [Hp1 [Hz1 [Hq1 [Hcp [Hcs [He1 [Ht1 [Hs1 Hc1]]]]]]]]]].
    rewrite E.
    destruct (IH st1 Hp1 Hz1 Hrest Hq1)
      as [Q [A [B [C [D [F [G [H I]]]]]]]].
    cbn [fold_left]. rewrite Hcp in A. rewrite Hcs in B.
    repeat split; try assumption.
    + now rewrite F, He1.
    + now rewrite G, Ht1.
    + rewrite H, Hs1, <- app_assoc. reflexivity.
    + rewrite I, Hc1. cbn [length]. lia.
Qed.

(** X2.  When [playNext] runs on a playing buffer whose queue begins
    with clips that do not start, followed by one that does, it drops
    exactly those clips, reports one error for each, and starts the
    first clip that does start: that clip is the one being played, the
    queue is what followed it, and no timeout is set. *)
Theorem playNext_skips_failed_starts (cfg : Timing) (st : AudioBufferManager)
  (bad : list AudioClip) (good : AudioClip) (rest : list AudioClip) :
  isPlaying st = true -> isPaused st = false ->
  queue st = bad ++ good :: rest ->
  Forall (fun c => startThrows c = true) bad ->
  startThrows good = false ->
  queue (playNext cfg st) = rest
  /\ currentlyPlaying (playNext cfg st) = Some good
  /\ pendingEnded (playNext cfg st) = pendingEnded st ++ [good]
  /\ pendingTimeouts (playNext cfg st) = pendingTimeouts st
  /\ started (emitted (playNext cfg st)) = started (emitted st) ++ bad ++ [good]
  /\ errorCount (emitted (playNext cfg st)) = errorCount (emitted st) + length bad.
Proof.
  intros Hp Hz Hq Hbad Hgood. unfold playNext. rewrite Hq.
  now apply playNextFrom_skips_failing.
Qed.

Lemma playNext_skips_failed_starts_witness :
  let st := playNext timing
              (set_isPlaying true
                 (set_queue [clipBad; clipBad; clipA; clipB] ready)) in
  queue st = [clipB] /\ currentlyPlaying st = Some clipA
  /\ errorCount (emitted st) = 2.
Proof.
  destruct (playNext_skips_failed_starts timing
              (set_isPlaying true
                 (set_queue [clipBad; clipBad; clipA; clipB] ready))
              [clipBad; clipBad] clipA [clipB] eq_refl eq_refl eq_refl)
    as [H1 [H2 [_ [_ [_ H6]]]]].
  - repeat constructor.
  - reflexivity.
  - repeat split; assumption.
Defined.

(** X3.  When every clip of the queue fails to start, [playNext] empties
    the queue, reports one error per clip and falls back to the
    empty-queue timeout with no source rendering; yet the last clip
    stays recorded as the one being played: [getStatus] names it and
    [isCurrentlyPlaying] answers true. *)
Theorem playNext_all_starts_fail (cfg : Timing) (st : AudioBufferManager)
  (front : list AudioClip) (final : AudioClip) :
  isPlaying st = true -> isPaused st = false ->
  queue st = front ++ [final] ->
  Forall (fun c => startThrows c = true) (front ++ [final]) ->
  queue (playNext cfg st) = []
  /\ pendingEnded (playNext cfg st) = pendingEnded st
  /\ pendingTimeouts (playNext cfg st) = S (pendingTimeouts st)
  /\ errorCount (emitted (playNext cfg st))
     = errorCount (emitted st) + length (front ++ [final])
  /\ statusCurrentlyPlaying (getStatus (playNext cfg st))
     = Some (text final, duration final)
  /\ isCurrentlyPlaying (playNext cfg st) = true.
Proof.
  intros Hp Hz Hq Hbad. unfold playNext. rewrite Hq.
  destruct (playNextFrom_all_failing cfg (front ++ [final]) st Hp Hz Hbad Hq)
    as [Q [A [B [C [D [F [G [_ I]]]]]]]].
  rewrite fold_left_app in A, B. cbn in A, B.
  repeat split; try assumption.
  - unfold getStatus. cbn. now rewrite A.
  - unfold isCurrentlyPlaying. now rewrite C, D, B.
Qed.

Lemma playNext_all_starts_fail_witness :
  let st := playNext timing
              (set_isPlaying true (set_queue [clipBad] ready)) in
  queue st = [] /\ pendingEnded st = [] /\ pendingTimeouts st = 1
  /\ isCurrentlyPlaying st = true.
Proof.
  destruct (playNext_all_starts_fail timing
              (set_isPlaying true (set_queue [clipBad] ready))
              [] clipBad eq_refl eq_refl eq_refl)
    as [H1 [H2 [H3 [_ [_ H6]]]]].
  - repeat constructor.
  - repeat split; assumption.
Defined.

End FailedStarts.

(** ** Pausing, resuming and stopping *)

Module PauseResume.

Import Config AudioBuffer AudioBufferFacts Samples BufferNotions PlaybackNotions.

Lemma playNextFrom_isPaused (cfg : Timing) (q : list AudioClip) :
  forall st, isPaused (playNextFrom cfg q st) = isPaused st.
Proof.
  induction q as [|c rest IH]; intros st; cbn [playNextFrom];
    destruct (negb (isPlaying st) || isPaused st); try reflexivity.
  destruct (startThrows c); [rewrite IH|];
    destruct (length (c :: rest) <=? minBufferClips cfg); reflexivity.
Qed.

(** X4.  [pause] on a playing buffer keeps the queue and starts nothing;
    the [resume] that follows starts the head of the queue, not the clip
    that was playing when the buffer was paused: that head is then the
    clip being played and the queue is its former tail. *)
Theorem resume_after_pause_plays_next (cfg : Timing) (st : AudioBufferManager)
  (next : AudioClip) (rest : list AudioClip) :
  isPlaying st = true -> isPaused st = false ->
  queue st = next :: rest -> startThrows next = false ->
  queue (pause st) = next :: rest
  /\ isPaused (pause st) = true
  /\ currentSource (pause st) = None
  /\ started (emitted (pause st)) = started (emitted st)
  /\ queue (resume cfg (pause st)) = rest
  /\ currentlyPlaying (resume cfg (pause st)) = Some next
  /\ isPaused (resume cfg (pause st)) = false
  /\ started (emitted (resume cfg (pause st))) = started (emitted st) ++ [next].
Proof.
  intros Hp Hz Hq Hs.
  assert (P : queue (pause st) = next :: rest
              /\ isPaused (pause st) = true
              /\ isPlaying (pause st) = true
              /\ currentSource (pause st) = None
              /\ started (emitted (pause st)) = started (emitted st)).
  { unfold pause. rewrite Hp. cbn [negb].
    destruct (currentSource (set_isPaused true st)) eqn:Hc; cbn;
      rewrite PlaybackOrder.started_app; cbn; rewrite app_nil_r;
      repeat split; try assumption; try reflexivity. }
  destruct P as [P1 [P2 [P3 [P4 P5]]]].
  repeat split; try assumption.
  all: unfold resume; rewrite P2; cbn [negb]; unfold playNext;
    replace (queue (set_isPaused false (pause st))) with ([] ++ next :: rest)
      by (symmetry; exact P1);
    destruct (FailedStarts.playNextFrom_skips_failing cfg []
                (set_isPaused false (pause st)) next rest P3 eq_refl
                (Forall_nil _) Hs) as [A [B [_ [_ [D _]]]]];
    try assumption.
  - now rewrite playNextFrom_isPaused.
  - rewrite D. cbn. now rewrite P5.
Qed.

Lemma resume_after_pause_plays_next_witness :
  let st := fst (play timing InitOk (set_queue [clipA; clipB; clipC] ready)) in
  currentlyPlaying st = Some clipA
  /\ queue (pause st) = [clipB; clipC]
  /\ currentlyPlaying (resume timing (pause st)) = Some clipB
  /\ queue (resume timing (pause st)) = [clipC].
Proof.
  destruct (resume_after_pause_plays_next timing
              (fst (play timing InitOk (set_queue [clipA; clipB; clipC] ready)))
              clipB [clipC] eq_refl eq_refl eq_refl eq_refl)
    as [H1 [_ [_ [_ [H5 [H6 _]]]]]].
  repeat split; assumption || reflexivity.
Defined.

Lemma playNextFrom_dormant (cfg : Timing) (q : list AudioClip) (st : AudioBufferManager) :
  dormant st -> playNextFrom cfg q st = st.
Proof.
  intros [H|H]; destruct q; cbn [playNextFrom]; rewrite H;
    rewrite ?orb_true_r; reflexivity.
Qed.

Lemma started_snoc_quiet (tr : list Event) (e : Event) :
  (forall c, e <> ClipStart c) -> started (tr ++ [e]) = started tr.
Proof.
  intros H. rewrite PlaybackOrder.started_app.
  destruct e; cbn; rewrite ?app_nil_r; try reflexivity.
  now contradiction (H clip).
Qed.

Lemma consume_dormant (cfg : Timing) (x : ConsumerInput) (st : AudioBufferManager) :
  wakes x = false -> dormant st ->
  dormant (consume cfg st x)
  /\ started (emitted (consume cfg st x)) = started (emitted st).
Proof.
  intros Hx Hd.
  destruct x as [r|clip| |i| | | |]; try discriminate Hx; cbn [consume].
  - destruct (addToQueue_cases cfg clip st) as [E|[e E]]; rewrite E; cbn [fst].
    + split; [exact Hd|]. cbn. apply started_snoc_quiet. discriminate.
    + split; [exact Hd|reflexivity].
  - split; [exact Hd|]. cbn. apply started_snoc_quiet. discriminate.
  - unfold sourceEnded.
    destruct (nth_error (pendingEnded st) i) as [c|]; [|split; [exact Hd|reflexivity]].
    unfold onended. cbv zeta.
    match goal with
    | |- context [if ?b then ?t else ?e] =>
        assert (Hb : b = false)
    end.
    { cbn. destruct Hd as [->| ->]; [reflexivity|apply andb_false_r]. }
    rewrite Hb. split; [exact Hd|]. cbn. apply started_snoc_quiet. discriminate.
  - unfold timeoutFires. destruct (pendingTimeouts st); [split; [exact Hd|reflexivity]|].
    unfold playNext. rewrite playNextFrom_dormant by exact Hd.
    split; [exact Hd|reflexivity].
  - unfold pause. destruct (isPlaying st) eqn:Hp; cbn [negb].
    + split.
      * right. destruct (currentSource (set_isPaused true st)); reflexivity.
      * destruct (currentSource (set_isPaused true st)); cbn;
          apply started_snoc_quiet; discriminate.
    + split; [left; exact Hp|reflexivity].
  - unfold stop.
    destruct (currentSource (set_isPaused false (set_isPlaying false st)));
      (split; [left; reflexivity|]); cbn;
      apply started_snoc_quiet; discriminate.
Qed.

Lemma consumeAll_dormant (cfg : Timing) (inputs : list ConsumerInput) :
  forall st,
    forallb (fun x => negb (wakes x)) inputs = true -> dormant st ->
    dormant (consumeAll cfg inputs st)
    /\ started (emitted (consumeAll cfg inputs st)) = started (emitted st).
Proof.
  induction inputs as [|x rest IH]; intros st Hall Hd; cbn [consumeAll fold_left].
  - split; [exact Hd|reflexivity].
  - cbn in Hall. apply andb_true_iff in Hall. destruct Hall as [Hx Hrest].
    apply negb_true_iff in Hx.
    destruct (consume_dormant cfg x st Hx Hd) as [Hd1 Hs1].
    destruct (IH (consume cfg st x) Hrest Hd1) as [Hd2 Hs2].
    split; [exact Hd2|]. unfold consumeAll in Hs2. now rewrite Hs2.
Qed.

(** X5.  After [pause], whatever state the buffer was in, no clip starts
    until [play] or [resume] is called: clips that arrive, timeouts that
    fire, [ended] events, further pauses, stops and queue clearings
    announce no clip start and leave the buffer paused or stopped. *)
Theorem paused_buffer_starts_nothing (cfg : Timing) (st : AudioBufferManager)
  (inputs : list ConsumerInput) :
  forallb (fun x => negb (wakes x)) inputs = true ->
  started (emitted (consumeAll cfg inputs (pause st))) = started (emitted st)
  /\ dormant (consumeAll cfg inputs (pause st)).
Proof.
  intros Hall.
  assert (Hd : dormant (pause st)
               /\ started (emitted (pause st)) = started (emitted st)).
  { unfold pause. destruct (isPlaying st) eqn:Hp; cbn [negb].
    - split.
      + right. destruct (currentSource (set_isPaused true st)); reflexivity.
      + destruct (currentSource (set_isPaused true st)); cbn;
          apply started_snoc_quiet; discriminate.
    - split; [left; exact Hp|reflexivity]. }
  destruct Hd as [Hd Hs].
  destruct (consumeAll_dormant cfg inputs (pause st) Hall Hd) as [H1 H2].
  split; [congruence|exact H1].
Qed.

Lemma paused_buffer_starts_nothing_witness :
  let st := fst (play timing InitOk (set_queue [clipA; clipB] ready)) in
  started (emitted
             (consumeAll timing [Enqueue clipC; Ended 0; TimeoutDue; Pause]
                (pause st)))
  = [clipA].
Proof.
  apply (paused_buffer_starts_nothing timing
           (fst (play timing InitOk (set_queue [clipA; clipB] ready)))
           [Enqueue clipC; Ended 0; TimeoutDue; Pause] eq_refl).
Defined.

Lemma consume_stopped (cfg : Timing) (x : ConsumerInput) (st : AudioBufferManager) :
  restarts x = false -> isPlaying st = false -> isPaused st = false ->
  (isPlaying (consume cfg st x) = false /\ isPaused (consume cfg st x) = false)
  /\ started (emitted (consume cfg st x)) = started (emitted st).
Proof.
  intros Hx Hp Hz.
  destruct x as [r|clip| |i| | | |]; try discriminate Hx.
  6:{ cbn [consume]. unfold resume. rewrite Hz. cbn [negb]. auto. }
  all: match goal with
       | |- context [consume ?c ?s ?x] =>
           destruct (consume_dormant c x s eq_refl (or_introl Hp)) as [_ Hs]
       end;
    split; [|exact Hs]; cbn [consume].
  - destruct (addToQueue_cases cfg clip st) as [E|[e E]]; rewrite E; cbn; auto.
  - cbn. auto.
  - unfold sourceEnded.
    destruct (nth_error (pendingEnded st) i) as [c|]; [|auto].
    unfold onended. cbv zeta.
    match goal with
    | |- context [if ?b then ?t else ?e] =>
        assert (Hb : b = false) by (cbn; now rewrite Hp)
    end.
    rewrite Hb. cbn. auto.
  - unfold timeoutFires. destruct (pendingTimeouts st); [auto|].
    unfold playNext. rewrite playNextFrom_dormant by (left; exact Hp). cbn. auto.
  - unfold pause. rewrite Hp. cbn. auto.
  - unfold stop.
    destruct (currentSource (set_isPaused false (set_isPlaying false st))); cbn; auto.
Qed.

Lemma consumeAll_stopped (cfg : Timing) (inputs : list ConsumerInput) :
  forall st,
    forallb (fun x => negb (restarts x)) inputs = true ->
    isPlaying st = false -> isPaused st = false ->
    (isPlaying (consumeAll cfg inputs st) = false
     /\ isPaused (consumeAll cfg inputs st) = false)
    /\ started (emitted (consumeAll cfg inputs st)) = started (emitted st).
Proof.
  induction inputs as [|x rest IH]; intros st Hall Hp Hz; cbn [consumeAll fold_left].
  - auto.
  - cbn in Hall. apply andb_true_iff in Hall. destruct Hall as [Hx Hrest].
    apply negb_true_iff in Hx.
    destruct (consume_stopped cfg x st Hx Hp Hz) as [[Hp1 Hz1] Hs1].
    destruct (IH (consume cfg st x) Hrest Hp1 Hz1) as [Hf Hs2].
    split; [exact Hf|]. unfold consumeAll in Hs2. now rewrite Hs2.
Qed.

(** X6.  After [stop], and equally on a buffer that was never played,
    only [play] starts playback again: whatever else happens, a call of
    [resume] included, no clip start is announced and the buffer stays
    neither playing nor paused. *)
Theorem stopped_buffer_needs_play (cfg : Timing) (st : AudioBufferManager)
  (inputs : list ConsumerInput) :
  forallb (fun x => negb (restarts x)) inputs = true ->
  started (emitted (consumeAll cfg inputs (stop st))) = started (emitted st)
  /\ isPlaying (consumeAll cfg inputs (stop st)) = false
  /\ isPaused (consumeAll cfg inputs (stop st)) = false.
Proof.
  intros Hall.
  assert (Hs : isPlaying (stop st) = false /\ isPaused (stop st) = false
               /\ started (emitted (stop st)) = started (emitted st)).
  { unfold stop.
    destruct (currentSource (set_isPaused false (set_isPlaying false st))); cbn;
      (repeat split; [apply started_snoc_quiet; discriminate]). }
  destruct Hs as [Hp [Hz Hs]].
  destruct (consumeAll_stopped cfg inputs (stop st) Hall Hp Hz) as [[H1 H2] H3].
  repeat split; congruence.
Qed.

Lemma stopped_buffer_needs_play_witness :
  let st := fst (play timing InitOk (set_queue [clipA; clipB] ready)) in
  started (emitted
             (consumeAll timing [Resume; Ended 0; Enqueue clipC; TimeoutDue]
                (stop st)))
  = [clipA].
Proof.
  apply (stopped_buffer_needs_play timing
           (fst (play timing InitOk (set_queue [clipA; clipB] ready)))
           [Resume; Ended 0; Enqueue clipC; TimeoutDue] eq_refl).
Defined.

End PauseResume.

(** ** What the buffer keeps under every operation *)

Module BufferInvariants.

Import Config AudioBuffer AudioBufferFacts Samples BufferNotions PlaybackNotions.

Lemma statusesOk_snoc (cfg : Timing) (tr : list Event) (e : Event) :
  statusesOk cfg tr ->
  (forall s, e = BufferUpdate s -> statusOk cfg s) ->
  statusesOk cfg (tr ++ [e]).
Proof.
  intros Htr He s Hin. apply in_app_or in Hin. destruct Hin as [Hin|[Hin|[]]].
  - now apply Htr.
  - now apply He.
Qed.

Lemma statusesOk_quiet (cfg : Timing) (tr : list Event) (e : Event) :
  statusesOk cfg tr -> (forall s, e <> BufferUpdate s) ->
  statusesOk cfg (tr ++ [e]).
Proof.
  intros Htr He. apply statusesOk_snoc; [exact Htr|].
  intros s Hs. now contradiction (He s).
Qed.

(** The report made in a state is as good as the state. *)
Lemma getStatus_ok (cfg : Timing) (st : AudioBufferManager) :
  (isPaused st = true -> isPlaying st = true) ->
  length (queue st) <= maxBufferClips cfg + 1 ->
  statusOk cfg (getStatus st).
Proof. intros Hf Hq. split; assumption. Qed.

Lemma notify_healthy (cfg : Timing) (st : AudioBufferManager) :
  healthy cfg st -> healthy cfg (notifyBufferUpdate st).
Proof.
  intros [Hf [Hq Htr]]. (split; [|split]); try assumption.
  cbn. apply statusesOk_snoc; [exact Htr|].
  intros s Hs. injection Hs as <-. apply getStatus_ok; [exact Hf|lia].
Qed.

Lemma playNextFrom_healthy (cfg : Timing) (q : list AudioClip) :
  forall st, queue st = q -> healthy cfg st -> healthy cfg (playNextFrom cfg q st).
Proof.
  induction q as [|clip rest IH]; intros st Hq [Hf [Hlen Htr]];
    cbn [playNextFrom];
    destruct (negb (isPlaying st) || isPaused st) eqn:Hg;
    try ((split; [|split]); assumption).
  - cbn. (split; [|split]); try assumption.
    cbn. apply statusesOk_quiet; [exact Htr|discriminate].
  - apply orb_false_iff in Hg. destruct Hg as [Hp Hz].
    apply negb_false_iff in Hp.
    rewrite Hq in Hlen. cbn [length] in Hlen.
    set (st1 := if length (clip :: rest) <=? minBufferClips cfg
                then emit BufferLow st else st).
    assert (H1 : isPlaying st1 = true /\ isPaused st1 = false
                 /\ statusesOk cfg (emitted st1)).
    { subst st1. destruct (_ <=? _); (split; [|split]); try assumption.
      cbn. apply statusesOk_quiet; [exact Htr|discriminate]. }
    clearbody st1. destruct H1 as [Hp1 [Hz1 Htr1]].
    assert (Htr3 : statusesOk cfg
                     ((emitted st1 ++ [ClipStart clip])
                        ++ [BufferUpdate
                              (getStatus
                                 (emit (ClipStart clip)
                                    (set_currentlyPlaying (Some clip)
                                       (set_queue rest st1))))])).
    { apply statusesOk_snoc.
      - apply statusesOk_quiet; [exact Htr1|discriminate].
      - intros s Hs. injection Hs as <-. apply getStatus_ok; cbn.
        + congruence.
        + lia. }
    destruct (startThrows clip).
    + apply IH; [reflexivity|]. (split; [|split]).
      * cbn. congruence.
      * cbn. lia.
      * cbn. apply statusesOk_quiet; [exact Htr3|discriminate].
    + (split; [|split]).
      * cbn. congruence.
      * cbn. lia.
      * cbn. exact Htr3.
Qed.

Lemma playNext_healthy (cfg : Timing) (st : AudioBufferManager) :
  healthy cfg st -> healthy cfg (playNext cfg st).
Proof. now apply playNextFrom_healthy. Qed.

Lemma healthy_flags (cfg : Timing) (st st' : AudioBufferManager) :
  queue st' = queue st -> emitted st' = emitted st ->
  (isPaused st' = true -> isPlaying st' = true) ->
  healthy cfg st -> healthy cfg st'.
Proof.
  intros Hq He Hf [_ [Hlen Htr]].
  split; [exact Hf|]. split; [now rewrite Hq | now rewrite He].
Qed.

Lemma consume_healthy (cfg : Timing) (x : ConsumerInput) (st : AudioBufferManager) :
  healthy cfg st -> healthy cfg (consume cfg st x).
Proof.
  intros H. pose proof H as [Hf [Hlen Htr]].
  destruct x as [r|clip| |i| | | |]; cbn [consume].
  - (* play *)
    unfold play.
    assert (Hinit : healthy cfg (fst (initialize r st))).
    { unfold initialize. destruct (isInitialized st); [exact H|].
      destruct r; cbn [fst]; try exact H;
        (apply (healthy_flags cfg st); [reflexivity|reflexivity|exact Hf|exact H]). }
    destruct (isInitialized st).
    + destruct (isPlaying st && negb (isPaused st)); [exact H|].
      destruct r; cbn [fst]; try exact H;
        (apply playNext_healthy;
         apply (healthy_flags cfg st); [reflexivity|reflexivity|reflexivity|exact H]).
    + destruct (initialize r st) as [st1 [|e]]; cbn [fst] in *; [|exact Hinit].
      destruct (isPlaying st1 && negb (isPaused st1)); [exact Hinit|].
      destruct r; cbn [fst];
        (apply playNext_healthy;
         apply (healthy_flags cfg st1);
         [reflexivity|reflexivity|reflexivity|exact Hinit]).
  - (* addToQueue *)
    destruct (addToQueue_cases cfg clip st) as [E|[e E]]; rewrite E; cbn [fst];
      [|exact H].
    unfold enqueueDecoded. (split; [|split]).
    + exact Hf.
    + cbn. apply QueueBound.trim_bounded.
    + cbn. apply statusesOk_snoc; [exact Htr|].
      intros s Hs. injection Hs as <-. apply getStatus_ok; cbn; [exact Hf|].
      rewrite length_app. cbn. lia.
  - (* clearQueue *)
    unfold clearQueue. apply notify_healthy.
    (split; [|split]); [exact Hf|cbn; lia|exact Htr].
  - (* an ended event *)
    unfold sourceEnded.
    destruct (nth_error (pendingEnded st) i) as [c|]; [|exact H].
    unfold onended. cbv zeta.
    assert (H2 : healthy cfg
                   (emit (ClipEnd c)
                      (set_currentlyPlaying None
                         (set_currentSource None
                            (set_pendingEnded (removeNth i (pendingEnded st)) st))))).
    { (split; [|split]); [exact Hf|exact Hlen|].
      cbn. apply statusesOk_quiet; [exact Htr|discriminate]. }
    match goal with
    | |- context [if ?b then _ else _] => destruct b
    end; [apply playNext_healthy|]; exact H2.
  - (* a timeout *)
    unfold timeoutFires. destruct (pendingTimeouts st); [exact H|].
    apply playNext_healthy.
    apply (healthy_flags cfg st); [reflexivity|reflexivity|exact Hf|exact H].
  - (* pause *)
    unfold pause. destruct (isPlaying st) eqn:Hp; cbn [negb]; [|exact H].
    apply notify_healthy.
    destruct (currentSource (set_isPaused true st));
      ((split; [|split]); [cbn; intros _; exact Hp|exact Hlen|exact Htr]).
  - (* resume *)
    unfold resume. destruct (isPaused st) eqn:Hz; cbn [negb]; [|exact H].
    apply playNext_healthy.
    (split; [|split]); [cbn; discriminate|exact Hlen|exact Htr].
  - (* stop *)
    unfold stop. apply notify_healthy.
    destruct (currentSource (set_isPaused false (set_isPlaying false st)));
      ((split; [|split]); [cbn; discriminate|exact Hlen|exact Htr]).
Qed.

Lemma consumeAll_healthy (cfg : Timing) (inputs : list ConsumerInput) :
  forall st, healthy cfg st -> healthy cfg (consumeAll cfg inputs st).
Proof.
  induction inputs as [|x rest IH]; intros st H; cbn; [exact H|].
  apply IH. now apply consume_healthy.
Qed.

Lemma new_healthy (cfg : Timing) : healthy cfg new.
Proof.
  split; [|split]; cbn; try discriminate; try lia.
  intros s [].
Qed.

(** X7.  Under every sequence of operations on a buffer fresh from the
    constructor, the queue holds at most [maxBufferClips] clips, and
    every status handed to the status listener reports at most
    [maxBufferClips + 1] queued clips: the one clip over the bound is
    the report that [addToQueue] makes between its push and its trim. *)
Theorem queue_and_reports_bounded (cfg : Timing) (inputs : list ConsumerInput) :
  length (queue (consumeAll cfg inputs new)) <= maxBufferClips cfg
  /\ (forall s,
        In (BufferUpdate s) (emitted (consumeAll cfg inputs new)) ->
        queuedClips s <= maxBufferClips cfg + 1).
Proof.
  destruct (consumeAll_healthy cfg inputs new (new_healthy cfg)) as [_ [Hq Htr]].
  split; [exact Hq|]. intros s Hin. now apply Htr.
Qed.

Lemma queue_and_reports_bounded_witness :
  let st := consumeAll timing
              [Play InitOk; Enqueue clipA; Enqueue clipB; Enqueue clipC;
               Enqueue clipA; Enqueue clipB; Enqueue clipC]
              new in
  length (queue st) = 5
  /\ In (BufferUpdate (mkStatus 6 30%float true false None)) (emitted st)
  /\ queuedClips (mkStatus 6 30%float true false None) <= 6.
Proof.
  assert (Hin : In (BufferUpdate (mkStatus 6 30%float true false None))
                   (emitted
                      (consumeAll timing
                         [Play InitOk; Enqueue clipA; Enqueue clipB; Enqueue clipC;
                          Enqueue clipA; Enqueue clipB; Enqueue clipC]
                         new))).
  { vm_compute. repeat (first [left; reflexivity | right]). }
  split; [reflexivity|]. split; [exact Hin|].
  exact (proj2 (queue_and_reports_bounded timing
                  [Play InitOk; Enqueue clipA; Enqueue clipB; Enqueue clipC;
                   Enqueue clipA; Enqueue clipB; Enqueue clipC])
               (mkStatus 6 30%float true false None) Hin).
Defined.

(** X8.  The buffer is paused only while it is playing, because [pause]
    sets [isPaused] without clearing [isPlaying] and [stop] clears both.
    So no status the buffer ever reports has [isPaused] without
    [isPlaying], and [updateBufferUI], which tests [isPlaying] first,
    never writes 'Paused': for a paused buffer it shows the buffered
    seconds. *)
Theorem paused_label_never_shown (cfg : Timing) (inputs : list ConsumerInput) :
  (isPaused (consumeAll cfg inputs new) = true ->
   isPlaying (consumeAll cfg inputs new) = true)
  /\ (forall s,
        In (BufferUpdate s) (emitted (consumeAll cfg inputs new)) ->
        Main.bufferText s <> Main.BufferPausedText).
Proof.
  destruct (consumeAll_healthy cfg inputs new (new_healthy cfg)) as [Hf [_ Htr]].
  split; [exact Hf|]. intros s Hin.
  destruct (Htr s Hin) as [Hs _]. unfold Main.bufferText.
  destruct (statusIsPlaying s); [discriminate|].
  destruct (statusIsPaused s); [|discriminate].
  specialize (Hs eq_refl). discriminate Hs.
Qed.

Lemma paused_label_never_shown_witness :
  let st := consumeAll timing [Play InitOk; Enqueue clipA; Pause] new in
  isPaused st = true
  /\ In (BufferUpdate (mkStatus 1 4%float true true None)) (emitted st)
  /\ Main.bufferText (mkStatus 1 4%float true true None) <> Main.BufferPausedText.
Proof.
  assert (Hin : In (BufferUpdate (mkStatus 1 4%float true true None))
                   (emitted
                      (consumeAll timing [Play InitOk; Enqueue clipA; Pause] new))).
  { vm_compute. repeat (first [left; reflexivity | right]). }
  split; [reflexivity|]. split; [exact Hin|].
  exact (proj2 (paused_label_never_shown timing [Play InitOk; Enqueue clipA; Pause])
               (mkStatus 1 4%float true true None) Hin).
Defined.

End BufferInvariants.

(** ** The consumer loop left alone *)

Module LoopContinuation.

Import Config AudioBuffer AudioBufferFacts Samples BufferNotions PlaybackNotions.

(** X9.  While the buffer is left to its consumer loop (no pause, resume
    or stop), the loop has at most one continuation pending, and exactly
    one once the buffer plays: either the empty-queue timeout or the
    [ended] event of the single source that was started.  The loop
    neither stalls nor forks, so no two sources render at once. *)
Theorem loop_has_one_continuation (cfg : Timing) (inputs : list ConsumerInput) :
  forallb leftToLoop inputs = true ->
  pendingTimeouts (consumeAll cfg inputs new)
    + length (pendingEnded (consumeAll cfg inputs new)) <= 1
  /\ (isPlaying (consumeAll cfg inputs new) = true ->
      pendingTimeouts (consumeAll cfg inputs new)
        + length (pendingEnded (consumeAll cfg inputs new)) = 1).
Proof.
  intros Hall.
  destruct (ClipOrder.consumeAll_inv cfg inputs Hall new ClipOrder.new_inv)
    as [_ Hloop].
  destruct Hloop as [H1 H2 H3 _|H1 H2 H3 _|c H1 H2 H3 _ _];
    rewrite H2, H3; cbn; split; try lia; congruence.
Qed.

Lemma loop_has_one_continuation_witness :
  let st := consumeAll timing
              [Play InitOk; Enqueue clipA; Enqueue clipB; TimeoutDue; Ended 0]
              new in
  pendingTimeouts st + length (pendingEnded st) = 1.
Proof.
  apply (loop_has_one_continuation timing
           [Play InitOk; Enqueue clipA; Enqueue clipB; TimeoutDue; Ended 0]
           eq_refl).
  reflexivity.
Defined.

(** X10.  A playing buffer that found its queue empty waits on one
    timeout.  When a clip that decodes and starts is enqueued meanwhile
    and the timeout fires, exactly that clip starts: it is the clip
    being played, the queue is empty again, no timeout is left, and a
    timeout event that has nothing pending changes nothing, so the clip
    is not started twice. *)
Theorem enqueue_while_waiting_starts_once (cfg : Timing) (st : AudioBufferManager)
  (clip : AudioClip) :
  1 <= maxBufferClips cfg ->
  isInitialized st = true -> isPlaying st = true -> isPaused st = false ->
  queue st = [] -> pendingTimeouts st = 1 ->
  blobDecodes clip = true -> startThrows clip = false ->
  let st' := timeoutFires cfg (fst (addToQueue cfg clip st)) in
  started (emitted st') = started (emitted st) ++ [clip]
  /\ currentlyPlaying st' = Some clip
  /\ queue st' = []
  /\ pendingEnded st' = pendingEnded st ++ [clip]
  /\ pendingTimeouts st' = 0
  /\ timeoutFires cfg st' = st'.
Proof.
  intros Hmax Hi Hp Hz Hq Ht Hd Hs st'. subst st'.
  assert (Hq1 : queue (enqueueDecoded cfg clip st) = [] ++ clip :: []).
  { unfold enqueueDecoded. cbn. rewrite Hq. cbn.
    destruct (maxBufferClips cfg) as [|m]; [lia|reflexivity]. }
  assert (E : timeoutFires cfg (fst (addToQueue cfg clip st))
              = playNextFrom cfg ([] ++ clip :: [])
                  (set_pendingTimeouts 0 (enqueueDecoded cfg clip st))).
  { unfold addToQueue. rewrite Hi, Hd. cbn [negb fst].
    unfold timeoutFires.
    replace (pendingTimeouts (enqueueDecoded cfg clip st)) with 1
      by (symmetry; exact Ht).
    unfold playNext.
    replace (queue (set_pendingTimeouts 0 (enqueueDecoded cfg clip st)))
      with ([] ++ clip :: []) by (symmetry; exact Hq1).
    reflexivity. }
  rewrite E.
  destruct (FailedStarts.playNextFrom_skips_failing cfg []
              (set_pendingTimeouts 0 (enqueueDecoded cfg clip st)) clip []
              Hp Hz (Forall_nil _) Hs) as [A [B [C [D [F _]]]]].
  repeat split; try assumption.
  - rewrite F. cbn. rewrite PlaybackOrder.started_app. cbn.
    now rewrite app_nil_r.
  - unfold timeoutFires. now rewrite D.
Qed.

Lemma enqueue_while_waiting_starts_once_witness :
  let st := fst (play timing InitOk ready) in
  pendingTimeouts st = 1
  /\ currentlyPlaying (timeoutFires timing (fst (addToQueue timing clipA st)))
     = Some clipA.
Proof.
  split; [reflexivity|].
  assert (Hmax : 1 <= maxBufferClips timing) by (simpl; lia).
  exact (proj1 (proj2 (enqueue_while_waiting_starts_once timing
                         (fst (play timing InitOk ready)) clipA Hmax
                         eq_refl eq_refl eq_refl eq_refl eq_refl eq_refl eq_refl))).
Defined.

End LoopContinuation.

(** ** The volume *)

Module Volume.

Import Config AudioBuffer.






End Volume.

(** ** The session and its triggers *)

Module SessionTriggers.

Import Config Main SessionNotions MainFacts.

Lemma listener_not_running (r : Replies) (e : AudioBuffer.Event) (w : Mil4dy) :
  isRunning w = false ->
  isRunning (listener r w e) = false
  /\ inFlight (listener r w e) = inFlight w
  /\ isGenerating (listener r w e) = isGenerating w.
Proof.
  intros H. destruct e; cbn; rewrite ?H; cbn; auto.
Qed.

Lemma listeners_not_running (r : Replies) (events : list AudioBuffer.Event) :
  forall w,
    isRunning w = false ->
    inFlight (fold_left (listener r) events w) = inFlight w
    /\ isGenerating (fold_left (listener r) events w) = isGenerating w.
Proof.
  induction events as [|e rest IH]; intros w H; cbn; [auto|].
  destruct (listener_not_running r e w H) as [H1 [H2 H3]].
  destruct (IH (listener r w e) H1) as [G1 G2].
  split; congruence.
Qed.

Lemma withListeners_not_running (r : Replies)
  (f : AudioBuffer.AudioBufferManager -> AudioBuffer.AudioBufferManager) (w : Mil4dy) :
  isRunning w = false ->
  inFlight (withListeners r f w) = inFlight w
  /\ isGenerating (withListeners r f w) = isGenerating w.
Proof.
  intros H. unfold withListeners.
  apply (listeners_not_running r _ (set_audioBuffer (f (audioBuffer w)) w)).
  exact H.
Qed.

(** X12.  While the session is not running, the low-buffer signal begins
    no pipeline run: whatever the audio buffer does on a timeout or on
    an [ended] event, and however often it raises the signal, no
    activation of [generateClip] is created and the generating flag is
    left as it was; nothing is produced and the history is untouched. *)
Theorem stopped_session_ignores_low_buffer (cfg : Timing) (r : Replies) (w : Mil4dy) :
  isRunning w = false ->
  listener r w AudioBuffer.BufferLow = w
  /\ (forall a,
        (a = TimeoutFires r \/ exists i, a = SourceEnded i r) ->
        inFlight (step cfg a w) = inFlight w
        /\ isGenerating (step cfg a w) = isGenerating w
        /\ clipsGenerated (step cfg a w) = clipsGenerated w
        /\ poetry (step cfg a w) = poetry w).
Proof.
  intros H. split.
  - cbn. now rewrite H.
  - intros a [->|[i ->]]; cbn [step].
    + destruct (withListeners_not_running r (AudioBuffer.timeoutFires cfg) w H)
        as [H1 H2].
      destruct (withListeners_frame r (AudioBuffer.timeoutFires cfg) w)
        as [_ [_ [H3 H4]]].
      auto.
    + destruct (withListeners_not_running r (AudioBuffer.sourceEnded cfg i) w H)
        as [H1 H2].
      destruct (withListeners_frame r (AudioBuffer.sourceEnded cfg i) w)
        as [_ [_ [H3 H4]]].
      auto.
Qed.

Lemma stopped_session_ignores_low_buffer_witness :
  inFlight (step timing (TimeoutFires allGood) afterOneSession)
  = inFlight afterOneSession
  /\ listener allGood afterOneSession AudioBuffer.BufferLow = afterOneSession.
Proof.
  destruct (stopped_session_ignores_low_buffer timing allGood afterOneSession
              eq_refl) as [H1 H2].
  split; [|exact H1].
  apply (H2 (TimeoutFires allGood)). left. reflexivity.
Defined.

Lemma listeners_timer (r : Replies) (events : list AudioBuffer.Event) :
  forall w,
    generationLoop (fold_left (listener r) events w) = generationLoop w
    /\ liveIntervals (fold_left (listener r) events w) = liveIntervals w.
Proof.
  induction events as [|e rest IH]; intros w; cbn; [auto|].
  destruct (IH (listener r w e)) as [H1 H2]. rewrite H1, H2.
  destruct e; cbn; auto.
  destruct (isRunning w && negb (isGenerating w)); [|auto].
  unfold spawnGenerateClip, generateClipEnter.
  destruct (isGenerating w); [auto|]. destruct (capture r); cbn; auto.
Qed.

Lemma withListeners_timer (r : Replies)
  (f : AudioBuffer.AudioBufferManager -> AudioBuffer.AudioBufferManager) (w : Mil4dy) :
  generationLoop (withListeners r f w) = generationLoop w
  /\ liveIntervals (withListeners r f w) = liveIntervals w.
Proof.
  unfold withListeners.
  apply (listeners_timer r _ (set_audioBuffer (f (audioBuffer w)) w)).
Qed.

Lemma generateClip_timer (cfg : Timing) (r : Replies) (w : Mil4dy) :
  generationLoop (generateClip cfg r w) = generationLoop w
  /\ liveIntervals (generateClip cfg r w) = liveIntervals w.
Proof.
  unfold generateClip, generateClipEnter.
  destruct (isGenerating w); [auto|].
  destruct (capture r); [|auto].
  cbn [resumeAll generateClipResume].
  destruct (vision r); [|auto].
  cbn [resumeAll generateClipResume].
  destruct (compose r); [|auto].
  cbn [resumeAll generateClipResume Poetry.generateReply Poetry.poemText].
  destruct (synth r); [|auto].
  destruct (negb (AudioBuffer.isInitialized _)); [auto|].
  cbn [resumeAll generateClipResume AudioBuffer.blobDecodes].
  destruct (AudioBuffer.blobDecodes a); auto.
Qed.

Lemma stop_effects (r : Replies) (w : Mil4dy) :
  isRunning (stop r w) = false
  /\ generationLoop (stop r w) = false
  /\ liveIntervals (stop r w)
     = (if generationLoop w then pred (liveIntervals w) else liveIntervals w)
  /\ audioBuffer (stop r w) = AudioBuffer.pause (audioBuffer w).
Proof.
  unfold stop.
  set (w2 := stopGenerationLoop (set_isRunning false w)).
  destruct (withListeners_frame r AudioBuffer.pause w2) as [Hab [Hr _]].
  destruct (withListeners_timer r AudioBuffer.pause w2) as [Hg Hl].
  rewrite Hab, Hr, Hg, Hl. subst w2. unfold stopGenerationLoop.
  cbn. destruct (generationLoop w) eqn:E; cbn; rewrite ?E; auto.
Qed.

(** X13.  A [start] that runs to its end followed by [stop] leaves the
    session not running, the timer handle cleared and as many interval
    timers alive as before the [start]: the timer that [start] created
    is the one that [stop] cancels.  The audio buffer is left paused.
    When no timer was alive before, none is alive after, and a tick
    finds nothing to do. *)
Theorem start_then_stop_cancels_timer (cfg : Timing) (r1 r2 r3 r4 : Replies) (w : Mil4dy) :
  generationLoop w = false ->
  let w' := stop r4 (start cfg AudioBuffer.InitOk r1 r2 r3 w) in
  isRunning w' = false
  /\ generationLoop w' = false
  /\ liveIntervals w' = liveIntervals w
  /\ AudioBuffer.isPlaying (audioBuffer w') = true
  /\ AudioBuffer.isPaused (audioBuffer w') = true
  /\ (liveIntervals w = 0 -> forall r, step cfg (IntervalTick r) w' = w').
Proof.
  intros Hg w'.
  assert (Hstart : generationLoop (start cfg AudioBuffer.InitOk r1 r2 r3 w) = true
                   /\ liveIntervals (start cfg AudioBuffer.InitOk r1 r2 r3 w)
                      = S (liveIntervals w)).
  { unfold start, startEnter.
    assert (Hinit : exists ab,
               AudioBuffer.initialize AudioBuffer.InitOk
                 (audioBuffer (set_isRunning true w)) = (ab, Returned)).
    { unfold AudioBuffer.initialize.
      destruct (AudioBuffer.isInitialized (audioBuffer (set_isRunning true w)));
        eexists; reflexivity. }
    destruct Hinit as [ab ->].
    unfold startPlay, startGenerationLoop, startPriming. cbn.
    split; [reflexivity|].
    destruct (withListeners_timer r3
                (fun b => fst (AudioBuffer.play cfg AudioBuffer.InitOk b))
                (generateClip cfg r2
                   (generateClip cfg r1
                      (set_audioBuffer ab (set_isRunning true w))))) as [_ Hl].
    rewrite Hl.
    destruct (generateClip_timer cfg r2
                (generateClip cfg r1 (set_audioBuffer ab (set_isRunning true w))))
      as [_ ->].
    destruct (generateClip_timer cfg r1 (set_audioBuffer ab (set_isRunning true w)))
      as [_ ->].
    reflexivity. }
  destruct Hstart as [Hgl Hli].
  destruct (Priming.start_proceeds cfg r1 r2 r3 w) as [_ [Hplay _]].
  destruct (stop_effects r4 (start cfg AudioBuffer.InitOk r1 r2 r3 w))
    as [S1 [S2 [S3 S4]]].
  rewrite Hgl, Hli in S3. cbn in S3.
  assert (Hp : AudioBuffer.isPlaying (audioBuffer w') = true
               /\ AudioBuffer.isPaused (audioBuffer w') = true).
  { subst w'. rewrite S4. unfold AudioBuffer.pause. rewrite Hplay. cbn [negb].
    destruct (AudioBuffer.currentSource _); cbn; auto. }
  destruct Hp as [Hp1 Hp2].
  repeat split; try assumption.
  intros H0 r. cbn [step]. subst w'. rewrite S3, H0. reflexivity.
Qed.

Lemma start_then_stop_cancels_timer_witness :
  liveIntervals afterOneSession = 0
  /\ generationLoop afterOneSession = false
  /\ step timing (IntervalTick allGood) afterOneSession = afterOneSession.
Proof.
  destruct (start_then_stop_cancels_timer timing allGood allGood allGood allGood
              new eq_refl) as [_ [H2 [H3 [_ [_ H6]]]]].
  split; [exact H3|]. split; [exact H2|].
  apply H6. reflexivity.
Defined.

(** [stop] written out: the listeners that [pause] invokes do nothing. *)
Lemma stop_explicit (r : Replies) (w : Mil4dy) :
  stop r w
  = set_audioBuffer (AudioBuffer.pause (audioBuffer w))
      (stopGenerationLoop (set_isRunning false w)).
Proof.
  unfold stop, withListeners.
  set (w2 := stopGenerationLoop (set_isRunning false w)).
  assert (Hab : audioBuffer w2 = audioBuffer w).
  { subst w2. unfold stopGenerationLoop.
    destruct (generationLoop (set_isRunning false w)); reflexivity. }
  rewrite Hab.
  destruct (StoppedSession.pause_emits (audioBuffer w)) as [->|[s ->]]; reflexivity.
Qed.

Lemma stop_fields (r : Replies) (w : Mil4dy) :
  isRunning (stop r w) = false
  /\ generationLoop (stop r w) = false
  /\ clipsGenerated (stop r w) = clipsGenerated w
  /\ errors (stop r w) = errors w
  /\ poetry (stop r w) = poetry w
  /\ inFlight (stop r w) = inFlight w
  /\ isGenerating (stop r w) = isGenerating w
  /\ AudioBuffer.isInitialized (audioBuffer (stop r w))
     = AudioBuffer.isInitialized (audioBuffer w).
Proof.
  rewrite stop_explicit. unfold stopGenerationLoop.
  assert (Hp : AudioBuffer.isInitialized (AudioBuffer.pause (audioBuffer w))
               = AudioBuffer.isInitialized (audioBuffer w)).
  { unfold AudioBuffer.pause.
    destruct (negb (AudioBuffer.isPlaying (audioBuffer w))); [reflexivity|].
    destruct (AudioBuffer.currentSource _); reflexivity. }
  destruct (generationLoop (set_isRunning false w)) eqn:E; cbn;
    repeat split; try reflexivity; try exact Hp.
  exact E.
Qed.

(** X14.  When the audio context cannot be created or resumed, [start]
    ends with the session stopped: no priming run is made, nothing is
    generated, no activation is created, the history and the error
    count are as before, the timer handle is cleared, and the audio
    buffer is still not initialized. *)
Theorem start_without_audio_ends_stopped (cfg : Timing)
  (init : AudioBuffer.InitReply) (r1 r2 r3 : Replies) (w : Mil4dy) :
  AudioBuffer.isInitialized (audioBuffer w) = false ->
  init <> AudioBuffer.InitOk ->
  let w' := start cfg init r1 r2 r3 w in
  isRunning w' = false
  /\ generationLoop w' = false
  /\ clipsGenerated w' = clipsGenerated w
  /\ errors w' = errors w
  /\ poetry w' = poetry w
  /\ inFlight w' = inFlight w
  /\ isGenerating w' = isGenerating w
  /\ AudioBuffer.isInitialized (audioBuffer w') = false.
Proof.
  intros Hi Hinit w'. subst w'. unfold start, startEnter.
  unfold AudioBuffer.initialize. cbn [audioBuffer set_isRunning]. rewrite Hi.
  destruct init; [now contradiction Hinit| |]; cbn [fst];
    match goal with
    | |- context [stop r3 ?v] =>
        destruct (stop_fields r3 v) as [S1 [S2 [S3 [S4 [S5 [S6 [S7 S8]]]]]]]
    end;
    rewrite S1, S2, S3, S4, S5, S6, S7, S8;
    repeat split; try reflexivity; exact Hi.
Qed.

Lemma start_without_audio_ends_stopped_witness :
  isRunning (start timing AudioBuffer.InitCtorThrows allGood allGood allGood new)
  = false
  /\ clipsGenerated
       (start timing AudioBuffer.InitCtorThrows allGood allGood allGood new) = 0.
Proof.
  assert (Hne : AudioBuffer.InitCtorThrows <> AudioBuffer.InitOk) by discriminate.
  destruct (start_without_audio_ends_stopped timing AudioBuffer.InitCtorThrows
              allGood allGood allGood new eq_refl Hne) as [H1 [_ [H3 _]]].
  split; [exact H1 | exact H3].
Defined.

End SessionTriggers.

(** ** What the clip counter counts *)

Module SessionCounts.

Import Config Main SessionNotions MainFacts PlaybackNotions HistoryNotions.

Lemma counted_same (w w' : Mil4dy) :
  lineup (audioBuffer w') = lineup (audioBuffer w) ->
  clipsGenerated w' = clipsGenerated w ->
  counted w -> counted w'.
Proof. unfold counted. intros -> ->. auto. Qed.

Lemma withListeners_counted (r : Replies)
  (f : AudioBuffer.AudioBufferManager -> AudioBuffer.AudioBufferManager) (w : Mil4dy) :
  (forall st, lineup (f st) = lineup st) ->
  counted w -> counted (withListeners r f w).
Proof.
  intros Hf H.
  destruct (withListeners_frame r f w) as [Hab [_ [_ Hc]]].
  apply (counted_same w); [now rewrite Hab, Hf|exact Hc|exact H].
Qed.

Lemma enqueueDecoded_lineup (cfg : Timing) (clip : AudioBuffer.AudioClip)
  (st : AudioBuffer.AudioBufferManager) :
  length (lineup (AudioBuffer.enqueueDecoded cfg clip st)) <= S (length (lineup st)).
Proof.
  unfold lineup, AudioBuffer.enqueueDecoded. cbn.
  rewrite PlaybackOrder.started_app. cbn. rewrite app_nil_r.
  rewrite QueueBound.trim_keeps_newest.
  repeat rewrite ?length_app, ?length_skipn. cbn [length]. lia.
Qed.

Lemma stop_counted (r : Replies) (w : Mil4dy) : counted w -> counted (stop r w).
Proof.
  intros H. rewrite SessionTriggers.stop_explicit.
  apply (counted_same w); [| |exact H].
  - assert (Hab : audioBuffer
                    (set_audioBuffer (AudioBuffer.pause (audioBuffer w))
                       (stopGenerationLoop (set_isRunning false w)))
                  = AudioBuffer.pause (audioBuffer w)) by reflexivity.
    rewrite Hab. apply PlaybackOrder.pause_lineup.
  - unfold stopGenerationLoop.
    destruct (generationLoop (set_isRunning false w)); reflexivity.
Qed.

Lemma step_counted (cfg : Timing) (a : Action) (w : Mil4dy) :
  counted w -> counted (step cfg a w).
Proof.
  intros H. destruct a as [r|r|i r|r|init r|r|i r|r|]; cbn [step].
  - destruct (spawn_frame r w) as [Hab [_ [_ Hc]]].
    apply (counted_same w); [now rewrite Hab|exact Hc|exact H].
  - destruct (liveIntervals w); [exact H|]. unfold intervalTick.
    destruct (_ <? _); [|exact H].
    destruct (negb (isGenerating w)); [|exact H].
    destruct (spawn_frame r w) as [Hab [_ [_ Hc]]].
    apply (counted_same w); [now rewrite Hab|exact Hc|exact H].
  - destruct (nth_error (inFlight w) i) as [ph|]; [|exact H].
    destruct ph; cbn [generateClipResume].
    + destruct (vision r); exact H.
    + destruct (compose r); exact H.
    + destruct (synth r); [|exact H].
      destruct (negb (AudioBuffer.isInitialized (audioBuffer w))); exact H.
    + destruct (AudioBuffer.blobDecodes clip); [|exact H].
      unfold counted in *.
      match goal with
      | |- length (lineup (audioBuffer ?v)) <= clipsGenerated ?v =>
          change (audioBuffer v)
            with (AudioBuffer.enqueueDecoded cfg clip (audioBuffer w));
          change (clipsGenerated v) with (S (clipsGenerated w))
      end.
      pose proof (enqueueDecoded_lineup cfg clip (audioBuffer w)). lia.
  - now apply stop_counted.
  - unfold startEnter.
    assert (Hinit : lineup (fst (AudioBuffer.initialize init (audioBuffer w)))
                    = lineup (audioBuffer w)).
    { unfold AudioBuffer.initialize.
      destruct (AudioBuffer.isInitialized (audioBuffer w)); [reflexivity|].
      destruct init; reflexivity. }
    cbn [audioBuffer set_isRunning].
    destruct (AudioBuffer.initialize init (audioBuffer w)) as [ab [|e]];
      cbn [fst] in *.
    + apply (counted_same w); [exact Hinit|reflexivity|exact H].
    + apply stop_counted.
      apply (counted_same w); [exact Hinit|reflexivity|exact H].
  - unfold startPlay, startGenerationLoop.
    apply (counted_same
             (withListeners r
                (fun b => fst (AudioBuffer.play cfg AudioBuffer.InitOk b)) w));
      [reflexivity|reflexivity|].
    apply withListeners_counted; [|exact H].
    intros st. apply PlaybackOrder.play_lineup.
  - apply withListeners_counted; [|exact H].
    intros st. apply PlaybackOrder.sourceEnded_lineup.
  - apply withListeners_counted; [|exact H].
    intros st. apply PlaybackOrder.timeoutFires_lineup.
  - exact H.
Qed.

Lemma exec_counted (cfg : Timing) (acts : list Action) :
  forall w, counted w -> counted (exec cfg acts w).
Proof.
  induction acts as [|a rest IH]; intros w H; cbn; [exact H|].
  apply IH. now apply step_counted.
Qed.

(** X15.  In every state the application can reach, the number of clips
    whose start has been announced plus the number still queued is at
    most [stats.clipsGenerated]: every clip that is played or waits was
    produced by a pipeline run that reached its end, and the difference
    is the number of clips dropped from the head of a full queue. *)
Theorem played_and_queued_within_generated (cfg : Timing) (acts : list Action) :
  length (started (AudioBuffer.emitted (audioBuffer (exec cfg acts new))))
    + length (AudioBuffer.queue (audioBuffer (exec cfg acts new)))
  <= clipsGenerated (exec cfg acts new).
Proof.
  assert (H0 : counted new) by (unfold counted; cbn; lia).
  pose proof (exec_counted cfg acts new H0) as H.
  unfold counted, lineup in H. rewrite length_app in H. exact H.
Qed.

End SessionCounts.

(** ** The history of previous lines *)

Module History.

Import Config Main SessionNotions MainFacts HistoryNotions.

Lemma split_pieces (sep : ascii) (s : string) :
  Forall (fun piece => hasChar sep piece = false) (JsString.split sep s).
Proof.
  induction s as [|c rest IH]; cbn.
  - constructor; [reflexivity|constructor].
  - destruct (Ascii.eqb c sep) eqn:E.
    + constructor; [reflexivity|exact IH].
    + destruct (JsString.split sep rest) as [|piece pieces].
      * constructor; [cbn; now rewrite E|constructor].
      * inversion IH; subst. constructor; [cbn; now rewrite E|assumption].
Qed.

Lemma nonBlankLines_proper (text : string) :
  Forall properLine (JsString.nonBlankLines text).
Proof.
  unfold JsString.nonBlankLines. apply Forall_forall. intros line Hin.
  apply filter_In in Hin. destruct Hin as [Hin Hk].
  split; [exact Hk|].
  pose proof (split_pieces JsString.newline text) as Hall.
  rewrite Forall_forall in Hall. now apply Hall.
Qed.

Lemma addToHistory_lines (text : string) (p : Poetry.PoetryModule) :
  0 < Poetry.maxPreviousLines p ->
  Poetry.previousLines (Poetry.addToHistory text p)
  = skipn (length (Poetry.previousLines p ++ JsString.nonBlankLines text)
             - Poetry.maxPreviousLines p)
          (Poetry.previousLines p ++ JsString.nonBlankLines text)
  /\ Poetry.maxPreviousLines (Poetry.addToHistory text p) = Poetry.maxPreviousLines p.
Proof.
  intros Hmax. unfold Poetry.addToHistory.
  cbn [Poetry.previousLines Poetry.maxPreviousLines Poetry.set_previousLines].
  destruct (Poetry.maxPreviousLines p <? _) eqn:E.
  - unfold JsString.sliceLast.
    destruct (Poetry.maxPreviousLines p =? 0) eqn:E0.
    + apply Nat.eqb_eq in E0. lia.
    + cbn. split; reflexivity.
  - apply Nat.ltb_ge in E. cbn.
    replace (_ - Poetry.maxPreviousLines p) with 0 by lia.
    split; reflexivity.
Qed.

Lemma addToHistory_ok (text : string) (p : Poetry.PoetryModule) :
  historyOk p -> historyOk (Poetry.addToHistory text p).
Proof.
  intros [Hmax [Hlen Hall]].
  destruct (addToHistory_lines text p) as [Hl Hm]; [lia|].
  split; [congruence|]. rewrite Hl, Hmax. split.
  - rewrite length_skipn. lia.
  - apply Forall_forall. intros line Hin.
    assert (Hin' : In line (Poetry.previousLines p ++ JsString.nonBlankLines text)).
    { rewrite <- (firstn_skipn
                    (length (Poetry.previousLines p ++ JsString.nonBlankLines text) - 12)).
      apply in_or_app. now right. }
    apply in_app_or in Hin'. destruct Hin' as [Hold|Hnew].
    + rewrite Forall_forall in Hall. now apply Hall.
    + pose proof (nonBlankLines_proper text) as Hp.
      rewrite Forall_forall in Hp. now apply Hp.
Qed.

Lemma historyOk_same (p p' : Poetry.PoetryModule) :
  Poetry.previousLines p' = Poetry.previousLines p ->
  Poetry.maxPreviousLines p' = Poetry.maxPreviousLines p ->
  historyOk p -> historyOk p'.
Proof. unfold historyOk. intros -> ->. auto. Qed.

Lemma step_historyOk (cfg : Timing) (a : Action) (w : Mil4dy) :
  historyOk (poetry w) -> historyOk (poetry (step cfg a w)).
Proof.
  intros H. destruct a as [r|r|i r|r|init r|r|i r|r|]; cbn [step].
  - destruct (spawn_frame r w) as [_ [_ [Hp _]]]. now rewrite Hp.
  - destruct (liveIntervals w); [exact H|]. unfold intervalTick.
    destruct (_ <? _); [|exact H].
    destruct (negb (isGenerating w)); [|exact H].
    destruct (spawn_frame r w) as [_ [_ [Hp _]]]. now rewrite Hp.
  - destruct (nth_error (inFlight w) i) as [ph|]; [|exact H].
    destruct ph; cbn [generateClipResume].
    + destruct (vision r); [|exact H].
      apply (historyOk_same (poetry w)); [reflexivity|reflexivity|exact H].
    + destruct (compose r) as [content|]; [|exact H].
      cbn. now apply addToHistory_ok.
    + destruct (synth r); [|exact H].
      destruct (negb (AudioBuffer.isInitialized (audioBuffer w))); exact H.
    + destruct (AudioBuffer.blobDecodes clip); exact H.
  - now rewrite HistoryAcrossSessions.stop_poetry.
  - unfold startEnter.
    destruct (AudioBuffer.initialize init (audioBuffer (set_isRunning true w)))
      as [ab [|e]]; cbn [fst]; [exact H|].
    now rewrite HistoryAcrossSessions.stop_poetry.
  - unfold startPlay, startGenerationLoop.
    destruct (withListeners_frame r
                (fun b => fst (AudioBuffer.play cfg AudioBuffer.InitOk b)) w)
      as [_ [_ [Hp _]]].
    cbn. now rewrite Hp.
  - destruct (withListeners_frame r (AudioBuffer.sourceEnded cfg i) w)
      as [_ [_ [Hp _]]]. now rewrite Hp.
  - destruct (withListeners_frame r (AudioBuffer.timeoutFires cfg) w)
      as [_ [_ [Hp _]]]. now rewrite Hp.
  - cbn. destruct H as [Hmax _]. split; [exact Hmax|]. split; [cbn; lia|constructor].
Qed.

Lemma exec_historyOk (cfg : Timing) (acts : list Action) :
  forall w, historyOk (poetry w) -> historyOk (poetry (exec cfg acts w)).
Proof.
  induction acts as [|a rest IH]; intros w H; cbn; [exact H|].
  apply IH. now apply step_historyOk.
Qed.

(** X16.  [addToHistory] appends the non-blank lines of the text and,
    with a positive bound, keeps the newest [maxPreviousLines] lines of
    the result: the oldest lines are the ones dropped.  In every state
    the application can reach the history holds at most twelve lines. *)
Theorem history_keeps_newest_twelve (cfg : Timing) :
  (forall text p,
      0 < Poetry.maxPreviousLines p ->
      Poetry.previousLines (Poetry.addToHistory text p)
      = skipn (length (Poetry.previousLines p ++ JsString.nonBlankLines text)
                 - Poetry.maxPreviousLines p)
              (Poetry.previousLines p ++ JsString.nonBlankLines text)
      /\ length (Poetry.previousLines (Poetry.addToHistory text p))
         <= Poetry.maxPreviousLines p)
  /\ (forall acts,
         length (Poetry.previousLines (poetry (exec cfg acts new))) <= 12).
Proof.
  split.
  - intros text p Hmax.
    destruct (addToHistory_lines text p Hmax) as [Hl _].
    split; [exact Hl|]. rewrite Hl, length_skipn. lia.
  - intros acts.
    assert (H0 : historyOk (poetry new)).
    { split; [reflexivity|]. split; [cbn; lia|constructor]. }
    destruct (exec_historyOk cfg acts new H0) as [_ [H _]]. exact H.
Qed.

Lemma history_keeps_newest_twelve_witness :
  Poetry.previousLines
    (Poetry.addToHistory "c"
       (Poetry.mkPoetry ["a"; "b"]%string 2 true None))
  = ["b"; "c"]%string.
Proof.
  destruct (history_keeps_newest_twelve timing) as [H _].
  assert (Hmax : 0 < Poetry.maxPreviousLines
                       (Poetry.mkPoetry ["a"; "b"]%string 2 true None))
    by (simpl; lia).
  destruct (H "c"%string (Poetry.mkPoetry ["a"; "b"]%string 2 true None) Hmax)
    as [Hl _].
  rewrite Hl. reflexivity.
Defined.

(** X17.  In every state the application can reach, each entry of the
    history is one non-blank line: it has a character that is not white
    space and contains no line break.  So the prompt, which joins the
    history with line breaks, shows one line per entry. *)
Theorem history_holds_proper_lines (cfg : Timing) (acts : list Action) :
  Forall properLine (Poetry.previousLines (poetry (exec cfg acts new))).
Proof.
  assert (H0 : historyOk (poetry new)).
  { split; [reflexivity|]. split; [cbn; lia|constructor]. }
  destruct (exec_historyOk cfg acts new H0) as [_ [_ H]]. exact H.
Qed.

End History.

(** ** Scene descriptions and frames *)

Module Scenes.

Import Config HistoryNotions.

Lemma has_In (set : list string) (word : string) :
  Vision.has set word = true <-> In word set.
Proof.
  unfold Vision.has. rewrite existsb_exists. split.
  - intros [x [Hin Heq]]. apply String.eqb_eq in Heq. now subst.
  - intros Hin. exists word. split; [exact Hin|apply String.eqb_refl].
Qed.

Lemma In_toSet (words : list string) (x : string) :
  In x (Vision.toSet words) <-> In x words.
Proof.
  induction words as [|w rest IH]; cbn; [tauto|].
  rewrite filter_In, IH. split.
  - intros [H|[H _]]; auto.
  - intros [H|H]; [now left|].
    destruct (String.eqb x w) eqn:E.
    + apply String.eqb_eq in E. left. now symmetry.
    + right. split; [exact H|reflexivity].
Qed.

Lemma NoDup_toSet (words : list string) : NoDup (Vision.toSet words).
Proof.
  induction words as [|w rest IH]; cbn; constructor.
  - rewrite filter_In. intros [_ H]. rewrite String.eqb_refl in H. discriminate.
  - now apply NoDup_filter.
Qed.

Lemma same_members_same_length (l1 l2 : list string) :
  NoDup l1 -> NoDup l2 -> (forall x, In x l1 <-> In x l2) ->
  length l1 = length l2.
Proof.
  intros H1 H2 H. apply Permutation_length. now apply NoDup_Permutation.
Qed.

(** X18.  [calculateSimilarity] is symmetric: the two descriptions can
    be swapped without changing the number it returns. *)
Theorem calculateSimilarity_symmetric (a b : string) :
  Vision.calculateSimilarity a b = Vision.calculateSimilarity b a.
Proof.
  unfold Vision.calculateSimilarity. cbv zeta.
  assert (Ha : NoDup (Vision.wordSet a)) by apply NoDup_toSet.
  assert (Hb : NoDup (Vision.wordSet b)) by apply NoDup_toSet.
  assert (Hi : length (filter (Vision.has (Vision.wordSet b)) (Vision.wordSet a))
               = length (filter (Vision.has (Vision.wordSet a)) (Vision.wordSet b))).
  { apply same_members_same_length; try (now apply NoDup_filter).
    intros x. rewrite !filter_In, !has_In. tauto. }
  assert (Hu : length (Vision.toSet (Vision.wordSet a ++ Vision.wordSet b))
               = length (Vision.toSet (Vision.wordSet b ++ Vision.wordSet a))).
  { apply same_members_same_length; try apply NoDup_toSet.
    intros x. rewrite !In_toSet, !in_app_iff. tauto. }
  now rewrite Hi, Hu.
Qed.

(** X19.  Scene tracking in [analyzeFrame].  A request that fails leaves
    the stored description as it was and yields an error.  A request
    that succeeds stores its description, and reports a new scene when
    nothing was stored (after construction, after [reset], or after an
    empty description).  When neither the stored description, which is
    not empty, nor the new one has a word longer than three characters,
    the similarity is 0/0 and the scene is reported as not new,
    whatever the two texts say. *)
Theorem analyzeFrame_scene_tracking :
  (forall status v,
      Vision.lastDescription (fst (Vision.analyzeFrame (Vision.ApiError status) v))
      = Vision.lastDescription v
      /\ exists e, snd (Vision.analyzeFrame (Vision.ApiError status) v) = inr e)
  /\ (forall content v,
         Vision.lastDescription (fst (Vision.analyzeFrame (Vision.ApiContent content) v))
         = content
         /\ (Vision.lastDescription v = ""%string ->
             snd (Vision.analyzeFrame (Vision.ApiContent content) v)
             = inl (Vision.mkScene content true)))
  /\ (forall content v c rest,
         Vision.lastDescription v = String c rest ->
         Vision.wordSet content = [] -> Vision.wordSet (String c rest) = [] ->
         snd (Vision.analyzeFrame (Vision.ApiContent content) v)
         = inl (Vision.mkScene content false)).
Proof.
  split; [|split].
  - intros status v. split; [reflexivity|eexists; reflexivity].
  - intros content v. split; [reflexivity|].
    intros H. unfold Vision.analyzeFrame, Vision.detectSceneChange, Vision.initialize.
    cbn [Vision.lastDescription snd]. now rewrite H.
  - intros content v c rest H Hc Hl.
    unfold Vision.analyzeFrame, Vision.detectSceneChange, Vision.initialize.
    cbn [Vision.lastDescription snd]. rewrite H.
    unfold Vision.calculateSimilarity. rewrite Hc, Hl. reflexivity.
Qed.

Lemma analyzeFrame_scene_tracking_witness :
  snd (Vision.analyzeFrame (Vision.ApiContent "a red cup"%string) Vision.new)
  = inl (Vision.mkScene "a red cup"%string true)
  /\ snd (Vision.analyzeFrame (Vision.ApiContent "a red cup"%string)
            (Vision.mkVision "the old dog"%string true))
     = inl (Vision.mkScene "a red cup"%string false).
Proof.
  destruct analyzeFrame_scene_tracking as [_ [H2 H3]].
  split.
  - apply (H2 "a red cup"%string Vision.new). reflexivity.
  - apply (H3 "a red cup"%string (Vision.mkVision "the old dog"%string true)
              "t"%char "he old dog"%string); reflexivity.
Defined.

Lemma split_without_separator (sep : ascii) (s : string) :
  hasChar sep s = false -> JsString.split sep s = [s].
Proof.
  induction s as [|c rest IH]; cbn; [reflexivity|].
  intros H. apply orb_false_iff in H. destruct H as [Hc Hrest].
  rewrite Hc, (IH Hrest). reflexivity.
Qed.

Lemma split_at_first_separator (sep : ascii) (before after : string) :
  hasChar sep before = false ->
  JsString.split sep (before ++ String sep after)
  = before :: JsString.split sep after.
Proof.
  induction before as [|c rest IH]; cbn.
  - intros _. now rewrite Ascii.eqb_refl.
  - intros H. apply orb_false_iff in H. destruct H as [Hc Hrest].
    rewrite Hc, (IH Hrest). reflexivity.
Qed.

(** X20.  [captureFrame] undoes the image URL of [analyzeFrame]: for a
    payload without a comma, as base64 text is, an initialized camera
    whose canvas gives the data URL
    ["data:image/jpeg;base64," ++ payload] returns exactly the payload,
    and putting the payload back into the image URL gives the data URL
    again.  A camera that is not initialized, and so one that was
    stopped while it held a stream, throws instead. *)
Theorem captureFrame_returns_payload (payload : string) (cam : Camera.CameraModule) :
  hasChar Camera.comma payload = false ->
  (Camera.isInitialized cam = true ->
   Camera.captureFrame (Vision.imageUrl payload) cam
   = Camera.CaptureReturns (Some payload))
  /\ (Camera.isInitialized cam = false ->
      Camera.captureFrame (Vision.imageUrl payload) cam = Camera.CaptureThrows)
  /\ (Camera.hasStream cam = true ->
      Camera.captureFrame (Vision.imageUrl payload) (Camera.stop cam)
      = Camera.CaptureThrows).
Proof.
  intros Hp. split; [|split].
  - intros Hi. unfold Camera.captureFrame. rewrite Hi. cbn [negb].
    change (Vision.imageUrl payload)
      with ("data:image/jpeg;base64" ++ String Camera.comma payload)%string.
    rewrite split_at_first_separator by reflexivity.
    rewrite (split_without_separator _ _ Hp). reflexivity.
  - intros Hi. unfold Camera.captureFrame. now rewrite Hi.
  - intros Hs. unfold Camera.stop. now rewrite Hs.
Qed.

Lemma captureFrame_returns_payload_witness :
  Camera.captureFrame (Vision.imageUrl "QUJD") (Camera.mkCamera true true)
  = Camera.CaptureReturns (Some "QUJD"%string)
  /\ Camera.captureFrame (Vision.imageUrl "QUJD")
       (Camera.stop (Camera.mkCamera true true))
     = Camera.CaptureThrows.
Proof.
  destruct (captureFrame_returns_payload "QUJD"%string (Camera.mkCamera true true)
              eq_refl) as [H1 [_ H3]].
  split; [apply H1|apply H3]; reflexivity.
Defined.

(** X21.  A pipeline run whose camera is not initialized, as after
    [camera.stop()], aborts at the capture: whatever the other stages
    would have answered, the run counts one error, leaves the audio
    buffer and the history as they were, generates nothing and hands
    control back with the flag down. *)
Theorem run_without_camera_aborts (cfg : Timing) (cam : Camera.CameraModule)
  (dataUrl : string) (r : Main.Replies) (w : Main.Mil4dy) :
  Main.isGenerating w = false ->
  Camera.isInitialized cam = false ->
  let w' := Main.generateClip cfg (withCamera cam dataUrl r) w in
  Main.errors w' = S (Main.errors w)
  /\ Main.audioBuffer w' = Main.audioBuffer w
  /\ Main.poetry w' = Main.poetry w
  /\ Main.clipsGenerated w' = Main.clipsGenerated w
  /\ Main.isGenerating w' = false.
Proof.
  intros Hg Hi w'. subst w'.
  unfold Main.generateClip, Main.generateClipEnter, withCamera,
         Camera.captureFrame.
  rewrite Hg, Hi. cbn. repeat split; reflexivity.
Qed.

Lemma run_without_camera_aborts_witness :
  Main.errors
    (Main.generateClip timing
       (withCamera (Camera.stop (Camera.mkCamera true true)) "data:,"
          SessionNotions.allGood)
       SessionNotions.primed) = 1.
Proof.
  destruct (run_without_camera_aborts timing
              (Camera.stop (Camera.mkCamera true true)) "data:,"%string
              SessionNotions.allGood SessionNotions.primed eq_refl eq_refl)
    as [H _].
  exact H.
Defined.

End Scenes.

(** ** What the error counter counts *)

Module ErrorCounts.

Import Config Main SessionNotions MainFacts PlaybackNotions HistoryNotions.

Lemma playNextFrom_appends (cfg : Timing) (q : list AudioBuffer.AudioClip) :
  appends (AudioBuffer.playNextFrom cfg q).
Proof.
  induction q as [|clip rest IH]; intros st; cbn [AudioBuffer.playNextFrom];
    destruct (negb (AudioBuffer.isPlaying st) || AudioBuffer.isPaused st);
    try (exists []; now rewrite app_nil_r).
  - cbn. eexists. reflexivity.
  - set (st1 := if length (clip :: rest) <=? minBufferClips cfg
                then AudioBuffer.emit AudioBuffer.BufferLow st else st).
    assert (H1 : exists added,
               AudioBuffer.emitted st1 = AudioBuffer.emitted st ++ added).
    { subst st1. destruct (_ <=? _); [eexists; reflexivity|].
      exists []. now rewrite app_nil_r. }
    clearbody st1. destruct H1 as [added1 H1].
    destruct (AudioBuffer.startThrows clip).
    + match goal with
      | |- context [AudioBuffer.playNextFrom cfg rest ?v] =>
          destruct (IH v) as [added2 H2]
      end.
      rewrite H2. cbn. rewrite H1, <- !app_assoc. eexists. reflexivity.
    + cbn. rewrite H1, <- !app_assoc. eexists. reflexivity.
Qed.

Lemma playNext_appends (cfg : Timing) : appends (AudioBuffer.playNext cfg).
Proof. intros st. apply playNextFrom_appends. Qed.

Lemma appends_after (f g : AudioBuffer.AudioBufferManager -> AudioBuffer.AudioBufferManager) :
  appends f -> appends g -> appends (fun st => g (f st)).
Proof.
  intros Hf Hg st. destruct (Hf st) as [a Ha]. destruct (Hg (f st)) as [b Hb].
  exists (a ++ b). now rewrite Hb, Ha, app_assoc.
Qed.

Lemma timeoutFires_appends (cfg : Timing) : appends (AudioBuffer.timeoutFires cfg).
Proof.
  intros st. unfold AudioBuffer.timeoutFires.
  destruct (AudioBuffer.pendingTimeouts st); [exists []; now rewrite app_nil_r|].
  apply (playNext_appends cfg (AudioBuffer.set_pendingTimeouts n st)).
Qed.

Lemma sourceEnded_appends (cfg : Timing) (i : nat) :
  appends (AudioBuffer.sourceEnded cfg i).
Proof.
  intros st. unfold AudioBuffer.sourceEnded.
  destruct (nth_error (AudioBuffer.pendingEnded st) i) as [c|];
    [|exists []; now rewrite app_nil_r].
  unfold AudioBuffer.onended. cbv zeta.
  match goal with
  | |- context [if ?b then AudioBuffer.playNext cfg ?v else _] =>
      destruct b; [destruct (playNext_appends cfg v) as [added H]; rewrite H|];
      cbn; eexists; rewrite <- ?app_assoc; reflexivity
  end.
Qed.

Lemma play_appends (cfg : Timing) (r : AudioBuffer.InitReply) :
  appends (fun st => fst (AudioBuffer.play cfg r st)).
Proof.
  intros st. unfold AudioBuffer.play.
  assert (Hinit : AudioBuffer.emitted (fst (AudioBuffer.initialize r st))
                  = AudioBuffer.emitted st).
  { unfold AudioBuffer.initialize. destruct (AudioBuffer.isInitialized st);
      [reflexivity|]. destruct r; reflexivity. }
  assert (Hnil : forall v, AudioBuffer.emitted v = AudioBuffer.emitted st ->
                           exists added,
                             AudioBuffer.emitted v = AudioBuffer.emitted st ++ added).
  { intros v Hv. exists []. now rewrite app_nil_r. }
  assert (Hplay : forall v, AudioBuffer.emitted v = AudioBuffer.emitted st ->
                            exists added,
                              AudioBuffer.emitted
                                (AudioBuffer.playNext cfg
                                   (AudioBuffer.set_isPaused false
                                      (AudioBuffer.set_isPlaying true v)))
                              = AudioBuffer.emitted st ++ added).
  { intros v Hv.
    destruct (playNext_appends cfg
                (AudioBuffer.set_isPaused false (AudioBuffer.set_isPlaying true v)))
      as [added H].
    exists added. rewrite H. cbn. now rewrite Hv. }
  destruct (AudioBuffer.isInitialized st).
  - destruct (AudioBuffer.isPlaying st && negb (AudioBuffer.isPaused st));
      [now apply Hnil|].
    destruct r; cbn [fst]; try (now apply Hplay); now apply Hnil.
  - destruct (AudioBuffer.initialize r st) as [st1 [|e]]; cbn [fst] in *;
      [|now apply Hnil].
    destruct (AudioBuffer.isPlaying st1 && negb (AudioBuffer.isPaused st1));
      [now apply Hnil|].
    destruct r; cbn [fst]; now apply Hplay.
Qed.

Lemma skipn_appended {A : Type} (l added : list A) :
  skipn (length l) (l ++ added) = added.
Proof. now rewrite skipn_app, skipn_all, Nat.sub_diag. Qed.

Lemma spawn_errors (r : Replies) (w : Mil4dy) :
  errors w <= errors (spawnGenerateClip r w).
Proof.
  unfold spawnGenerateClip, generateClipEnter.
  destruct (isGenerating w); [lia|]. destruct (capture r); cbn; lia.
Qed.

Lemma listeners_errors (r : Replies) (events : list AudioBuffer.Event) :
  forall w, errors w + errorCount events <= errors (fold_left (listener r) events w).
Proof.
  induction events as [|e rest IH]; intros w; cbn [fold_left errorCount]; [lia|].
  specialize (IH (listener r w e)).
  destruct e; cbn [listener errorCount] in *; try lia.
  - destruct (isRunning w && negb (isGenerating w)); [|lia].
    pose proof (spawn_errors r w). lia.
  - cbn in IH. lia.
Qed.

Lemma withListeners_failuresCounted (r : Replies)
  (f : AudioBuffer.AudioBufferManager -> AudioBuffer.AudioBufferManager) (w : Mil4dy) :
  appends f -> failuresCounted w -> failuresCounted (withListeners r f w).
Proof.
  intros Hf H. unfold failuresCounted in *.
  destruct (withListeners_frame r f w) as [Hab _]. rewrite Hab.
  unfold withListeners.
  destruct (Hf (audioBuffer w)) as [added Ha]. rewrite Ha, skipn_appended.
  pose proof (listeners_errors r added (set_audioBuffer (f (audioBuffer w)) w)) as He.
  rewrite FailedStarts.errorCount_app.
  change (errors (set_audioBuffer (f (audioBuffer w)) w)) with (errors w) in He.
  lia.
Qed.

Lemma failuresCounted_more (w w' : Mil4dy) :
  AudioBuffer.emitted (audioBuffer w') = AudioBuffer.emitted (audioBuffer w)
  \/ (exists s, AudioBuffer.emitted (audioBuffer w')
                = AudioBuffer.emitted (audioBuffer w) ++ [AudioBuffer.BufferUpdate s]) ->
  errors w <= errors w' ->
  failuresCounted w -> failuresCounted w'.
Proof.
  unfold failuresCounted. intros [->|[s ->]] He H; [lia|].
  rewrite FailedStarts.errorCount_app. cbn. lia.
Qed.

Lemma stop_failuresCounted (r : Replies) (w : Mil4dy) :
  failuresCounted w -> failuresCounted (stop r w).
Proof.
  intros H. rewrite SessionTriggers.stop_explicit.
  apply (failuresCounted_more w); [| |exact H].
  - change (audioBuffer
              (set_audioBuffer (AudioBuffer.pause (audioBuffer w))
                 (stopGenerationLoop (set_isRunning false w))))
      with (AudioBuffer.pause (audioBuffer w)).
    unfold AudioBuffer.pause.
    destruct (negb (AudioBuffer.isPlaying (audioBuffer w))); [left; reflexivity|].
    right. eexists.
    destruct (AudioBuffer.currentSource _); reflexivity.
  - unfold stopGenerationLoop.
    destruct (generationLoop (set_isRunning false w)); cbn; lia.
Qed.

Lemma step_failuresCounted (cfg : Timing) (a : Action) (w : Mil4dy) :
  failuresCounted w -> failuresCounted (step cfg a w).
Proof.
  intros H. destruct a as [r|r|i r|r|init r|r|i r|r|]; cbn [step].
  - apply (failuresCounted_more w); [|apply spawn_errors|exact H].
    left. destruct (spawn_frame r w) as [Hab _]. now rewrite Hab.
  - destruct (liveIntervals w); [exact H|]. unfold intervalTick.
    destruct (_ <? _); [|exact H].
    destruct (negb (isGenerating w)); [|exact H].
    apply (failuresCounted_more w); [|apply spawn_errors|exact H].
    left. destruct (spawn_frame r w) as [Hab _]. now rewrite Hab.
  - destruct (nth_error (inFlight w) i) as [ph|]; [|exact H].
    destruct ph; cbn [generateClipResume].
    + destruct (vision r);
        (apply (failuresCounted_more w); [left; reflexivity|cbn; lia|exact H]).
    + destruct (compose r);
        (apply (failuresCounted_more w); [left; reflexivity|cbn; lia|exact H]).
    + destruct (synth r);
        [destruct (negb (AudioBuffer.isInitialized (audioBuffer w)))|];
        (apply (failuresCounted_more w); [left; reflexivity|cbn; lia|exact H]).
    + destruct (AudioBuffer.blobDecodes clip);
        (apply (failuresCounted_more w); [|cbn; lia|exact H]).
      * right. eexists. reflexivity.
      * left. reflexivity.
  - now apply stop_failuresCounted.
  - unfold startEnter.
    assert (Hinit : AudioBuffer.emitted
                      (fst (AudioBuffer.initialize init (audioBuffer w)))
                    = AudioBuffer.emitted (audioBuffer w)).
    { unfold AudioBuffer.initialize.
      destruct (AudioBuffer.isInitialized (audioBuffer w)); [reflexivity|].
      destruct init; reflexivity. }
    cbn [audioBuffer set_isRunning].
    destruct (AudioBuffer.initialize init (audioBuffer w)) as [ab [|e]];
      cbn [fst] in *.
    + apply (failuresCounted_more w); [left; exact Hinit|cbn; lia|exact H].
    + apply stop_failuresCounted.
      apply (failuresCounted_more w); [left; exact Hinit|cbn; lia|exact H].
  - unfold startPlay, startGenerationLoop.
    apply (failuresCounted_more
             (withListeners r
                (fun b => fst (AudioBuffer.play cfg AudioBuffer.InitOk b)) w));
      [left; reflexivity|cbn; lia|].
    apply withListeners_failuresCounted; [apply play_appends|exact H].
  - apply withListeners_failuresCounted; [apply sourceEnded_appends|exact H].
  - apply withListeners_failuresCounted; [apply timeoutFires_appends|exact H].
  - exact H.
Qed.

Lemma exec_failuresCounted (cfg : Timing) (acts : list Action) :
  forall w, failuresCounted w -> failuresCounted (exec cfg acts w).
Proof.
  induction acts as [|a rest IH]; intros w H; cbn; [exact H|].
  apply IH. now apply step_failuresCounted.
Qed.

(** X22.  In every state the application can reach, [stats.errors] is at
    least the number of failed starts the audio buffer has reported:
    the error listener that [setupAudioCallbacks] installs counts each
    of them, next to the runs that aborted. *)
Theorem failed_starts_are_counted (cfg : Timing) (acts : list Action) :
  errorCount (AudioBuffer.emitted (audioBuffer (exec cfg acts new)))
  <= errors (exec cfg acts new).
Proof.
  apply (exec_failuresCounted cfg acts new). unfold failuresCounted. cbn. lia.
Qed.

End ErrorCounts.
